(** * downloads-cleanup: the classification and safe-move engine of organiser.py

    A shallow embedding of [src/organiser.py] and the properties of its
    extension index, classifier, settling filter, destination resolver,
    mover and scan driver. The configuration loader, the command line and
    the two watch loops are not modelled.

    Modelling conventions.
    - A Python [str] is a [string]; a character is a code point below 256,
      so [str.lower] and [str.strip] are the Latin-1 fragments of the
      Unicode operations.
    - A [dict] whose iteration order matters ([Config.mappings]) is an
      association list in insertion order; the extension index, only ever
      probed by key, is a [gmap string string].
    - [pathlib], [os] and [shutil] are not part of the repository: the
      fragment of their behaviour that [organize_file] reaches is modelled
      in the modules [Py], [PurePath], [Fs] and [Shutil] below ([pathlib]
      name parsing as it is up to Python 3.13; a single-device tree of
      regular files and directories with a write permission on directories;
      no symbolic links; one thread, so the tree does not change between two
      calls of a run). Every directory of the tree can be searched and every
      name fits the limits of the file system, so a [stat] fails with ENOENT
      or ENOTDIR only: the errors that [Path.exists] and [Path.is_file]
      re-raise (EACCES, ENAMETOOLONG) are outside the model, and no
      statement below is about them.
    - A path is the list of its components; file names and category names
      are single components.
    - Time stamps and durations are integral clock ticks.
    - A function of the source that reads or changes the file system is a
      computation in the monad [M] of state and exceptions. *)

From Stdlib Require Import Ascii ZArith NArith Lia.
From Stdlib Require String.
From stdpp Require Import base decidable option list gmap strings pretty.

Local Open Scope Z_scope.
#[local] Set Warnings "-abstract-large-number".

(** ** Python string primitives *)

Module Py.

(** Code points that [str.isspace] accepts below 256: the ASCII controls
    9-13 and 28-31, the space, NEL (0x85) and the no-break space (0xA0). *)
Definition is_space (c : ascii) : bool :=
  let n := N_of_ascii c in
  ((9 <=? n) && (n <=? 13) || (28 <=? n) && (n <=? 32)
   || (n =? 133) || (n =? 160))%N.

(** [str.lower] on one code point below 256: A-Z and the Latin-1 capitals
    0xC0-0xDE (the multiplication sign 0xD7 apart) move up by 32. *)
Definition lower_char (c : ascii) : ascii :=
  let n := N_of_ascii c in
  if ((65 <=? n) && (n <=? 90)
      || (192 <=? n) && (n <=? 222) && negb (n =? 215))%N
  then ascii_of_N (n + 32) else c.

Fixpoint lower (s : string) : string :=
  match s with
  | EmptyString => EmptyString
  | String c s' => String (lower_char c) (lower s')
  end.

Fixpoint lstrip (s : string) : string :=
  match s with
  | EmptyString => EmptyString
  | String c s' => if is_space c then lstrip s' else s
  end.

Fixpoint rstrip (s : string) : string :=
  match s with
  | EmptyString => EmptyString
  | String c s' =>
      match rstrip s' with
      | EmptyString => if is_space c then EmptyString else String c EmptyString
      | r => String c r
      end
  end.

(** [s.strip()] *)
Definition strip (s : string) : string := lstrip (rstrip s).

(** [s.startswith(p)] *)
Fixpoint startswith (p s : string) : bool :=
  match p with
  | EmptyString => true
  | String a p' =>
      match s with
      | EmptyString => false
      | String b s' => Ascii.eqb a b && startswith p' s'
      end
  end.

(** [s.endswith(c)] for a one-character [c] *)
Fixpoint endswith_char (c : ascii) (s : string) : bool :=
  match s with
  | EmptyString => false
  | String a EmptyString => Ascii.eqb a c
  | String _ s' => endswith_char c s'
  end.

(** [s.lstrip(c)] for a one-character [c] *)
Fixpoint lstrip_char (c : ascii) (s : string) : string :=
  match s with
  | EmptyString => EmptyString
  | String a s' => if Ascii.eqb a c then lstrip_char c s' else s
  end.

(** [s.rfind(c)]: the last index of [c]; Python's [-1] is [None]. *)
Fixpoint rfind (c : ascii) (s : string) : option nat :=
  match s with
  | EmptyString => None
  | String a s' =>
      match rfind c s' with
      | Some i => Some (S i)
      | None => if Ascii.eqb a c then Some O else None
      end
  end.

(** [s.split(c)]: never empty, one more piece than occurrences of [c]. *)
Fixpoint split (c : ascii) (s : string) : list string :=
  match s with
  | EmptyString => [EmptyString]
  | String a s' =>
      if Ascii.eqb a c then EmptyString :: split c s'
      else match split c s' with
           | w :: ws => String a w :: ws
           | [] => [String a EmptyString]
           end
  end.

(** [s[i:]] and [s[:i]] for [0 <= i] *)
Definition slice_from (i : nat) (s : string) : string :=
  String.substring i (String.length s - i) s.
Definition slice_to (i : nat) (s : string) : string :=
  String.substring 0 i s.

(** ["".join(l)] *)
Definition join (l : list string) : string := foldr String.append "" l.

(** [c in s] for a one-character [c] *)
Fixpoint contains (c : ascii) (s : string) : bool :=
  match s with
  | EmptyString => false
  | String a s' => Ascii.eqb a c || contains c s'
  end.

(** [sorted(l, key=len, reverse=True)]: a stable sort, so among strings of
    equal length the earlier one stays first. *)
Fixpoint insert_by_len (x : string) (l : list string) : list string :=
  match l with
  | [] => [x]
  | y :: l' =>
      if (String.length y <=? String.length x)%nat then x :: l
      else y :: insert_by_len x l'
  end.

Definition sorted_len_desc (l : list string) : list string :=
  foldr insert_by_len [] l.

End Py.

(** ** Extension normalisation *)

Definition _normalize_extension (ext : string) : string :=
  let ext := Py.lower (Py.strip ext) in
  if String.eqb ext "" then ""
  else if negb (Py.startswith "." ext) then "." +:+ ext
  else ext.

(** ** Pure path names ([pathlib.PurePath] up to Python 3.13) *)

Module PurePath.

(** [PurePath(name).suffix]: from the last dot on, unless that dot is the
    first or the last character. *)
Definition suffix (name : string) : string :=
  match Py.rfind "." name with
  | Some i =>
      if ((0 <? i) && (i <? String.length name - 1))%nat
      then Py.slice_from i name else ""
  | None => ""
  end.

(** [PurePath(name).stem]: the name without its [suffix]. *)
Definition stem (name : string) : string :=
  match Py.rfind "." name with
  | Some i =>
      if ((0 <? i) && (i <? String.length name - 1))%nat
      then Py.slice_to i name else name
  | None => name
  end.

(** [PurePath(name).suffixes] *)
Definition suffixes (name : string) : list string :=
  if Py.endswith_char "." name then []
  else map (String ".") (tail (Py.split "." (Py.lstrip_char "." name))).

End PurePath.

(** A path is the list of its components below the root; [p / s] appends the
    single component [s] (file names and category names are single
    components: not empty, not a dot, and without a separator). *)
Definition Path : Type := list string.

Definition name (p : Path) : string := List.last p "".
Definition parent (p : Path) : Path := removelast p.
Definition truediv (p : Path) (s : string) : Path := p ++ [s].
Infix "</>" := truediv (at level 50, left associativity).

(** ** Configuration *)

Definition DEFAULT_MAPPINGS : list (string * list string) :=
  [ ("Images", ["jpg"; "jpeg"; "png"; "gif"; "webp"; "tiff"; "svg"; "heic"]);
    ("Videos", ["mp4"; "mov"; "mkv"; "avi"; "webm"]);
    ("Audio", ["mp3"; "wav"; "m4a"; "flac"; "aac"; "ogg"]);
    ("Documents", ["pdf"; "doc"; "docx"; "txt"; "rtf"; "odt"; "pages"; "md"]);
    ("Spreadsheets", ["xls"; "xlsx"; "csv"; "ods"]);
    ("Presentations", ["ppt"; "pptx"; "key"]);
    ("Archives", ["zip"; "rar"; "7z"; "tar"; "gz"; "bz2"; "tar.gz"; "tar.bz2"]);
    ("Code", ["py"; "js"; "ts"; "json"; "yml"; "yaml"; "toml"; "html"; "css";
              "sh"; "go"; "rs"]);
    ("Installers", ["dmg"; "pkg"; "app"; "exe"; "msi"]);
    ("Fonts", ["ttf"; "otf"; "woff"; "woff2"]) ].

Definition TRANSIENT_EXTENSIONS : gset string :=
  {[ ".download"; ".crdownload"; ".part"; ".partial"; ".tmp" ]}.

Definition SKIP_NAMES : gset string := {[ ".DS_Store" ]}.

Record Config := {
  downloads_dir : Path;
  mappings : list (string * list string);
  other_folder : string;
  scan_existing_flag : bool;
  watch : bool;
  poll_interval_seconds : Z;
  min_age_seconds : Z;
  ignore_hidden : bool;
  dry_run : bool;
}.

(** ** Extension index *)

(** The inner loop of [_build_extension_map]: every extension of one
    category is written under its normalised form. *)
Definition add_folder (ext_map : gmap string string)
    (entry : string * list string) : gmap string string :=
  foldl (fun acc ext => <[_normalize_extension ext := entry.1]> acc)
        ext_map entry.2.

Definition _build_extension_map (mappings : list (string * list string))
  : gmap string string :=
  foldl add_folder ∅ mappings.

(** ** Classifier *)

Definition _extension_candidates (path : Path) : list string :=
  let suffixes := map Py.lower (PurePath.suffixes (name path)) in
  match suffixes with
  | [] => [""]
  | _ => map (fun i => Py.join (drop i suffixes)) (seq 0 (length suffixes))
  end.

(** The [for candidate in sorted(...)] loop of [_decide_folder]: the first
    candidate whose normalised form is a key. *)
Fixpoint first_match (ext_map : gmap string string) (candidates : list string)
  : option string :=
  match candidates with
  | [] => None
  | candidate :: rest =>
      match ext_map !! _normalize_extension candidate with
      | Some folder => Some folder
      | None => first_match ext_map rest
      end
  end.

Definition _decide_folder (path : Path) (ext_map : gmap string string)
    (other_folder : string) : string :=
  let candidates := _extension_candidates path in
  match first_match ext_map (Py.sorted_len_desc candidates) with
  | Some folder => folder
  | None =>
      match ext_map !! "" with
      | Some folder => folder
      | None => other_folder
      end
  end.

(** ** The world: a file tree, a clock and a console *)

(** The exceptions the modelled calls raise; every one is an [OSError] in
    Python ([shutil.Error] and its subclass [SameFileError] included). *)
Inductive exn :=
  | FileNotFoundError | NotADirectoryError | IsADirectoryError
  | FileExistsError | PermissionError | ShutilError | SameFileError.

Inductive node :=
  | File (mtime : Z)
  | Dir (writable : bool).

(** The three lines [organize_file] prints. *)
Inductive line :=
  | DryRunLine (file folder : string)
  | MovedLine (file folder : string)
  | FailedLine (file : string) (exc : exn).

Record World := {
  tree : gmap Path node;
  clock : Z;
  console : list line;
}.

Definition set_tree (t : gmap Path node) (w : World) : World :=
  {| tree := t; clock := clock w; console := console w |}.

(** How a call ends: it returns, it raises, or it leaves the modelled
    fragment ([Stuck]: a loop out of fuel, a library branch that is not
    modelled). [organize_file] is shown never to be [Stuck]. *)
Inductive outcome (A : Type) :=
  | Return (a : A)
  | Raise (e : exn)
  | Stuck.
Arguments Return {A} a.
Arguments Raise {A} e.
Arguments Stuck {A}.

(** State and exceptions: the world is threaded through, and survives a raise. *)
Definition M (A : Type) : Type := World -> outcome A * World.

Definition ret {A} (a : A) : M A := fun w => (Return a, w).
Definition raise {A} (e : exn) : M A := fun w => (Raise e, w).
Definition stuck {A} : M A := fun w => (Stuck, w).
Definition bind {A B} (m : M A) (k : A -> M B) : M B :=
  fun w =>
    match m w with
    | (Return a, w') => k a w'
    | (Raise e, w') => (Raise e, w')
    | (Stuck, w') => (Stuck, w')
    end.
Definition gets {A} (f : World -> A) : M A := fun w => (Return (f w), w).

(** [try: m except <handles> as e: handler e] *)
Definition try_except {A} (m : M A) (handles : exn -> bool)
    (handler : exn -> M A) : M A :=
  fun w =>
    match m w with
    | (Raise e, w') => if handles e then handler e w' else (Raise e, w')
    | r => r
    end.

Notation "x <- m ;; k" := (bind m (fun x => k))
  (at level 100, m at next level, right associativity).
Notation "m ;;; k" := (bind m (fun _ => k))
  (at level 100, right associativity).

Definition is_FileNotFoundError (e : exn) : bool :=
  match e with FileNotFoundError => true | _ => false end.

(** [except OSError] and [except (OSError, shutil.Error)] *)
Definition is_OSError (e : exn) : bool := true.

(** ** The file system calls ([os], [pathlib.Path], [time], [print]) *)

Module Fs.

(** [p.exists()] and [p.is_file()], for a [stat] that answers or fails
    with ENOENT or ENOTDIR: both calls turn these two errors into [False]. *)
Definition exists_ (p : Path) : M bool :=
  gets (fun w => bool_decide (is_Some (tree w !! p))).

Definition is_file (p : Path) : M bool :=
  gets (fun w => match tree w !! p with Some (File _) => true | _ => false end).

Definition is_dir (p : Path) : M bool :=
  gets (fun w => match tree w !! p with Some (Dir _) => true | _ => false end).

(** [p.stat().st_mtime]; directories carry no time stamp in the model. *)
Definition stat_mtime (p : Path) : M Z :=
  fun w =>
    match tree w !! p with
    | Some (File mtime) => (Return mtime, w)
    | Some (Dir _) => (Stuck, w)
    | None => (Raise FileNotFoundError, w)
    end.

Definition time : M Z := gets clock.

Definition print (l : line) : M unit :=
  fun w => (Return tt,
            {| tree := tree w; clock := clock w; console := (console w ++ [l])%list |}).

(** [os.mkdir(p)] *)
Definition os_mkdir (p : Path) : M unit :=
  fun w =>
    match tree w !! parent p with
    | None => (Raise FileNotFoundError, w)
    | Some (File _) => (Raise NotADirectoryError, w)
    | Some (Dir writable) =>
        if bool_decide (is_Some (tree w !! p)) then (Raise FileExistsError, w)
        else if writable then (Return tt, set_tree (<[p := Dir true]> (tree w)) w)
        else (Raise PermissionError, w)
    end.

(** [p.mkdir(parents=False, exist_ok=exist_ok)] *)
Definition mkdir_here (p : Path) (exist_ok : bool) : M unit :=
  try_except (os_mkdir p) is_OSError
    (fun e =>
       if is_FileNotFoundError e then raise e
       else d <- is_dir p ;; if negb exist_ok || negb d then raise e else ret tt).

(** [p.mkdir(parents=parents, exist_ok=exist_ok)], by recursion on the
    reversed path [rp]: a missing parent is created first (with
    [parents=True, exist_ok=True]) and the directory itself is then made
    with [parents=False]. *)
Fixpoint mkdir_rev (rp : list string) (parents exist_ok : bool) : M unit :=
  let p := rev rp in
  try_except (os_mkdir p) is_OSError
    (fun e =>
       if is_FileNotFoundError e then
         match rp with
         | [] => raise e
         | _ :: rparent =>
             if negb parents then raise e
             else mkdir_rev rparent true true ;;; mkdir_here p exist_ok
         end
       else d <- is_dir p ;; if negb exist_ok || negb d then raise e else ret tt).

Definition mkdir (p : Path) (parents exist_ok : bool) : M unit :=
  mkdir_rev (rev p) parents exist_ok.

(** [os.rename(src, dst)] for a source that is a regular file; renaming a
    directory is outside the model. *)
Definition os_rename (src dst : Path) : M unit :=
  fun w =>
    match tree w !! parent src, tree w !! parent dst with
    | None, _ | _, None => (Raise FileNotFoundError, w)
    | Some (File _), _ | _, Some (File _) => (Raise NotADirectoryError, w)
    | Some (Dir wsrc), Some (Dir wdst) =>
        match tree w !! src with
        | None => (Raise FileNotFoundError, w)
        | Some (Dir _) => (Stuck, w)
        | Some (File mtime) =>
            if bool_decide (src = dst) then (Return tt, w)
            else if negb (wsrc && wdst) then (Raise PermissionError, w)
            else match tree w !! dst with
                 | Some (Dir _) => (Raise IsADirectoryError, w)
                 | _ => (Return tt,
                         set_tree (<[dst := File mtime]> (delete src (tree w))) w)
                 end
        end
    end.

(** [os.unlink(p)] *)
Definition os_unlink (p : Path) : M unit :=
  fun w =>
    match tree w !! parent p with
    | None => (Raise FileNotFoundError, w)
    | Some (File _) => (Raise NotADirectoryError, w)
    | Some (Dir writable) =>
        match tree w !! p with
        | None => (Raise FileNotFoundError, w)
        | Some (Dir _) => (Raise IsADirectoryError, w)
        | Some (File _) =>
            if writable then (Return tt, set_tree (delete p (tree w)) w)
            else (Raise PermissionError, w)
        end
    end.

(** [p.iterdir()]: the children of a directory, listed once when the loop
    starts, in the order of the listing. *)
Definition iterdir (p : Path) : M (list Path) :=
  fun w =>
    match tree w !! p with
    | Some (Dir _) =>
        (Return (filter (fun q => parent q = p /\ q ≠ [])
                   (map fst (map_to_list (tree w)))), w)
    | Some (File _) => (Raise NotADirectoryError, w)
    | None => (Raise FileNotFoundError, w)
    end.

End Fs.

(** ** [shutil.copy2] and [shutil.move] *)

Module Shutil.

(** [shutil.copyfile(src, dst)] followed by [copystat]: the copy carries
    the source's modification time. *)
Definition copyfile_stat (src dst : Path) : M unit :=
  fun w =>
    match tree w !! src with
    | None => (Raise FileNotFoundError, w)
    | Some (Dir _) => (Raise IsADirectoryError, w)
    | Some (File mtime) =>
        if bool_decide (src = dst) then (Raise SameFileError, w)
        else
          match tree w !! parent dst with
          | None => (Raise FileNotFoundError, w)
          | Some (File _) => (Raise NotADirectoryError, w)
          | Some (Dir writable) =>
              match tree w !! dst with
              | Some (Dir _) => (Raise IsADirectoryError, w)
              | Some (File _) =>
                  (Return tt, set_tree (<[dst := File mtime]> (tree w)) w)
              | None =>
                  if writable
                  then (Return tt, set_tree (<[dst := File mtime]> (tree w)) w)
                  else (Raise PermissionError, w)
              end
          end
    end.

Definition copy2 (src dst : Path) : M unit :=
  d <- Fs.is_dir dst ;;
  copyfile_stat src (if d then dst </> name src else dst).

(** [shutil.move(src, dst)]: a rename, and when the rename raises an
    [OSError], a copy followed by the removal of the source. The fallback
    for a source directory ([copytree]) is outside the model. *)
Definition move (src dst : Path) : M unit :=
  d <- Fs.is_dir dst ;;
  if d && bool_decide (src = dst) then Fs.os_rename src dst
  else
    real_dst <-
      (if d then
         let real_dst := dst </> name src in
         e <- Fs.exists_ real_dst ;;
         if e then raise ShutilError else ret real_dst
       else ret dst) ;;
    try_except (Fs.os_rename src real_dst) is_OSError
      (fun _ =>
         sd <- Fs.is_dir src ;;
         if sd then stuck
         else copy2 src real_dst ;;; Fs.os_unlink src).

End Shutil.

(** ** Destination resolver *)

(** [f"{stem}-{index}{suffix}"] *)
Definition numbered (stem suffix : string) (index : nat) : string :=
  stem +:+ "-" +:+ pretty index +:+ suffix.

(** The [while True] loop of [_resolve_destination], [fuel] probes long. *)
Fixpoint probe (fuel : nat) (dest_dir : Path) (stem suffix : string)
    (index : nat) : M Path :=
  match fuel with
  | O => stuck
  | S fuel' =>
      let candidate := dest_dir </> numbered stem suffix index in
      e <- Fs.exists_ candidate ;;
      if negb e then ret candidate
      else probe fuel' dest_dir stem suffix (S index)
  end.

(** The loop is run for one probe more than the tree has entries; that is
    always enough for it to return ([probe_finds]). *)
Definition _resolve_destination (dest_dir : Path) (filename : string) : M Path :=
  let candidate := dest_dir </> filename in
  e <- Fs.exists_ candidate ;;
  if negb e then ret candidate
  else
    let stem := PurePath.stem filename in
    let suffix := Py.join (PurePath.suffixes filename) in
    fuel <- gets (fun w => S (size (tree w))) ;;
    probe fuel dest_dir stem suffix 1.

(** ** Settling filter *)

Definition _should_skip (path : Path) (config : Config) : M bool :=
  if bool_decide (name path ∈ SKIP_NAMES) then ret true
  else if ignore_hidden config && Py.startswith "." (name path) then ret true
  else if bool_decide (Py.lower (PurePath.suffix (name path)) ∈ TRANSIENT_EXTENSIONS)
  then ret true
  else
    f <- Fs.is_file path ;;
    if negb f then ret true
    else
      age <- try_except
               (now <- Fs.time ;; mtime <- Fs.stat_mtime path ;; ret (Some (now - mtime)))
               is_FileNotFoundError
               (fun _ => ret None) ;;
      match age with
      | None => ret true
      | Some age => ret (age <? min_age_seconds config)
      end.

(** ** Mover *)

Definition organize_file (path : Path) (config : Config)
    (ext_map : gmap string string) : M (option Path) :=
  skip <- _should_skip path config ;;
  if skip then ret None
  else
    let folder_name := _decide_folder path ext_map (other_folder config) in
    let dest_dir := downloads_dir config </> folder_name in
    e <- Fs.exists_ dest_dir ;;
    (if negb e then Fs.mkdir dest_dir true true else ret tt) ;;;
    destination <- _resolve_destination dest_dir (name path) ;;
    if bool_decide (destination = path) then ret None
    else if dry_run config then
      Fs.print (DryRunLine (name path) (name dest_dir)) ;;;
      ret (Some destination)
    else
      try_except
        (Shutil.move path destination ;;;
         Fs.print (MovedLine (name path) (name dest_dir)) ;;;
         ret (Some destination))
        is_OSError
        (fun exc => Fs.print (FailedLine (name path) exc) ;;; ret None).

(** ** Scan driver *)

(** [for item in items: body(item)] *)
Fixpoint for_each {A} (items : list A) (body : A -> M unit) : M unit :=
  match items with
  | [] => ret tt
  | item :: rest => body item ;;; for_each rest body
  end.

Definition scan_existing (config : Config) (ext_map : gmap string string) : M unit :=
  items <- Fs.iterdir (downloads_dir config) ;;
  for_each items (fun item =>
    f <- Fs.is_file item ;;
    if f && bool_decide (parent item = downloads_dir config)
    then organize_file item config ext_map ;;; ret tt
    else ret tt).

(** ** Specification vocabulary *)

(** A string is in normal form for [strip] and [lower] when both leave it. *)
Definition clean (s : string) : Prop :=
  Py.lstrip s = s /\ Py.rstrip s = s /\ Py.lower s = s.

(** The candidates of a non-empty suffix list, by recursion on the list:
    the join of every non-empty tail, longest first. *)
Fixpoint joined_tails (suffixes : list string) : list string :=
  match suffixes with
  | [] => []
  | s :: rest => Py.join (s :: rest) :: joined_tails rest
  end.

(** A list of strings whose lengths never increase. *)
Fixpoint len_desc (l : list string) : Prop :=
  match l with
  | [] => True
  | x :: l' =>
      match l' with
      | [] => True
      | y :: _ => (String.length y <= String.length x)%nat
      end /\ len_desc l'
  end.

(** A dot followed by text, all of it lower-case: the shape of every
    lower-cased suffix. *)
Definition dotted_lower (s : string) : Prop :=
  Py.startswith "." s = true /\ Py.lower s = s.

(** A directory in which photo.jpg and its first [n] numbered variants are
    all taken. *)
Definition collisions (n : nat) : World :=
  {| tree :=
       list_to_map
         (([], Dir false) :: (["Images"], Dir true) ::
          (["Images"; "photo.jpg"], File 0) ::
          map (fun i => (["Images"; numbered "photo" ".jpg" i], File 0)) (seq 1 n));
     clock := 0;
     console := [] |}.

(** A directory that already holds archive.tar.gz. *)
Definition archive_taken : World :=
  {| tree :=
       list_to_map
         [ ([], Dir false); (["Archives"], Dir true);
           (["Archives"; "archive.tar.gz"], File 0) ];
     clock := 0;
     console := [] |}.

(** The part of [organize_file] that follows the settling filter, and its
    three steps: the destination directory is ensured, the destination is
    resolved, and the file is delivered to it (moved, or reported in a dry
    run). [organize_file_eq] checks that this is the body of the source. *)
Definition dest_dir_of (path : Path) (config : Config)
    (ext_map : gmap string string) : Path :=
  downloads_dir config </> _decide_folder path ext_map (other_folder config).

Definition ensure_dir (dest_dir : Path) : M unit :=
  e <- Fs.exists_ dest_dir ;;
  if negb e then Fs.mkdir dest_dir true true else ret tt.

Definition deliver (path : Path) (config : Config) (dest_dir destination : Path)
  : M (option Path) :=
  if bool_decide (destination = path) then ret None
  else if dry_run config then
    Fs.print (DryRunLine (name path) (name dest_dir)) ;;;
    ret (Some destination)
  else
    try_except
      (Shutil.move path destination ;;;
       Fs.print (MovedLine (name path) (name dest_dir)) ;;;
       ret (Some destination))
      is_OSError
      (fun exc => Fs.print (FailedLine (name path) exc) ;;; ret None).

Definition relocate (path : Path) (config : Config)
    (ext_map : gmap string string) : M (option Path) :=
  let dest_dir := dest_dir_of path config ext_map in
  ensure_dir dest_dir ;;;
  destination <- _resolve_destination dest_dir (name path) ;;
  deliver path config dest_dir destination.

(** *** Fixtures: a Downloads folder and a configuration *)

Definition home_downloads : Path := ["home"; "u"; "Downloads"].

(** A Downloads folder, writable or not, that holds the regular files
    [files] (name and modification time) and nothing else; the clock reads
    100. *)
Definition downloads_world (writable : bool) (files : list (string * Z)) : World :=
  {| tree :=
       list_to_map
         (map (fun f => (home_downloads </> f.1, File f.2)) files ++
          [ ([], Dir false); (["home"], Dir false); (["home"; "u"], Dir true);
            (home_downloads, Dir writable) ]);
     clock := 100;
     console := [] |}.

Definition default_config (ignore_hidden dry_run : bool) : Config :=
  {| downloads_dir := home_downloads;
     mappings := DEFAULT_MAPPINGS;
     other_folder := "Other";
     scan_existing_flag := true;
     watch := true;
     poll_interval_seconds := 3;
     min_age_seconds := 3;
     ignore_hidden := ignore_hidden;
     dry_run := dry_run |}.

Definition default_index : gmap string string :=
  _build_extension_map DEFAULT_MAPPINGS.

(** [grows w w']: the world [w'] is [w] with directories added and nothing
    else changed; in particular both hold the same regular files. *)
Definition grows (w w' : World) : Prop :=
  clock w' = clock w /\ console w' = console w /\ tree w ⊆ tree w' /\
  forall p mtime, tree w' !! p = Some (File mtime) -> tree w !! p = Some (File mtime).

(** The configuration with its dry-run flag set to [b]. *)
Definition set_dry_run (b : bool) (config : Config) : Config :=
  {| downloads_dir := downloads_dir config;
     mappings := mappings config;
     other_folder := other_folder config;
     scan_existing_flag := scan_existing_flag config;
     watch := watch config;
     poll_interval_seconds := poll_interval_seconds config;
     min_age_seconds := min_age_seconds config;
     ignore_hidden := ignore_hidden config;
     dry_run := b |}.

(** A tree is well formed when every entry but the root lies in a
    directory of the tree. *)
Definition is_dir_at (t : gmap Path node) (p : Path) : bool :=
  match t !! p with Some (Dir _) => true | _ => false end.

Definition wf_tree (t : gmap Path node) : Prop :=
  map_Forall (fun p _ => p = [] \/ is_dir_at t (parent p) = true) t.

(** A call preserves well-formedness, however it ends. *)
Definition preserves_wf {A} (m : M A) : Prop :=
  forall w r w', m w = (r, w') -> wf_tree (tree w) -> wf_tree (tree w').

(** A Downloads folder with two settled files, and the same world once
    report.pdf has been moved. *)
Definition two_files : World :=
  downloads_world true [("report.pdf", 10); ("notes.txt", 20)].

Definition report_path : Path := home_downloads </> "report.pdf".

(** The world at a later (or any other) time. *)
Definition at_time (t : Z) (w : World) : World :=
  {| tree := tree w; clock := t; console := console w |}.

(** The body of the loop of [scan_existing]. *)
Definition scan_item (config : Config) (ext_map : gmap string string)
    (item : Path) : M unit :=
  f <- Fs.is_file item ;;
  if f && bool_decide (parent item = downloads_dir config)
  then organize_file item config ext_map ;;; ret tt
  else ret tt.

(** A Downloads folder with a settled file and a subdirectory that holds a
    file of its own. *)
Definition with_subdirectory : World :=
  set_tree
    (<[home_downloads </> "Projects" </> "draft.pdf" := File 5]>
       (<[home_downloads </> "Projects" := Dir true]> (tree two_files)))
    two_files.

(** The default settings for a Downloads folder at [dir]. *)
Definition config_at (dir : Path) (dry_run : bool) : Config :=
  {| downloads_dir := dir;
     mappings := DEFAULT_MAPPINGS;
     other_folder := "Other";
     scan_existing_flag := true;
     watch := false;
     poll_interval_seconds := 3;
     min_age_seconds := 3;
     ignore_hidden := true;
     dry_run := dry_run |}.

(** * Properties *)

(** ** Sanity checks on concrete names *)

Example normalize_ex1 : _normalize_extension " JPG " = ".jpg".
Proof. reflexivity. Qed.
Example normalize_ex2 : _normalize_extension ".Tar.GZ" = ".tar.gz".
Proof. reflexivity. Qed.
Example normalize_ex3 : _normalize_extension "   " = "".
Proof. reflexivity. Qed.
Example suffixes_ex1 : PurePath.suffixes "archive.tar.gz" = [".tar"; ".gz"].
Proof. reflexivity. Qed.
Example suffixes_ex2 : PurePath.suffixes ".secret.pdf" = [".pdf"].
Proof. reflexivity. Qed.
Example suffixes_ex3 : PurePath.suffixes "a..b." = [].
Proof. reflexivity. Qed.
Example suffixes_ex4 : PurePath.suffixes "a..b" = ["."; ".b"].
Proof. reflexivity. Qed.
Example stem_ex1 : PurePath.stem "archive.tar.gz" = "archive.tar".
Proof. reflexivity. Qed.
Example stem_ex2 : PurePath.stem ".bashrc" = ".bashrc".
Proof. reflexivity. Qed.
Example suffix_ex1 : PurePath.suffix "x.Part" = ".Part".
Proof. reflexivity. Qed.
Example suffixes_ex5 : PurePath.suffixes "..a.b" = [".b"].
Proof. reflexivity. Qed.
Example suffixes_ex6 : PurePath.suffixes "a.b.c .d " = [".b"; ".c "; ".d "].
Proof. reflexivity. Qed.
Example stem_ex3 : PurePath.stem "..a.b" = "..a".
Proof. reflexivity. Qed.
Example stem_ex4 : PurePath.stem "a..b" = "a.".
Proof. reflexivity. Qed.
Example stem_ex5 : PurePath.stem "a." = "a.".
Proof. reflexivity. Qed.
Example sorted_ex1 :
  Py.sorted_len_desc ["bb"; "a"; "cc"; "dd"; "e"] = ["bb"; "cc"; "dd"; "a"; "e"].
Proof. reflexivity. Qed.
Example cands_ex1 : _extension_candidates ["d"; "A.Tar.GZ"] = [".tar.gz"; ".gz"].
Proof. reflexivity. Qed.
Example decide_ex1 :
  _decide_folder ["d"; "A.Tar.GZ"] (_build_extension_map DEFAULT_MAPPINGS) "Other" = "Archives".
Proof. vm_compute. reflexivity. Qed.
Example decide_ex2 :
  _decide_folder ["d"; "photo.JPG"] (_build_extension_map DEFAULT_MAPPINGS) "Other" = "Images".
Proof. vm_compute. reflexivity. Qed.
Example decide_ex3 :
  _decide_folder ["d"; "mystery.xyz"] (_build_extension_map DEFAULT_MAPPINGS) "Other" = "Other".
Proof. vm_compute. reflexivity. Qed.

(** ** Strings *)

Section string_facts.

Implicit Types (s t : string) (c : ascii).

(** *** Concatenation *)

Lemma str_app_cons c s1 s2 : String c s1 +:+ s2 = String c (s1 +:+ s2).
Proof. reflexivity. Qed.

Lemma str_app_nil_r s : s +:+ "" = s.
Proof. induction s as [|c s IH]; [done | by rewrite str_app_cons, IH]. Qed.

Lemma str_app_assoc s1 s2 s3 : (s1 +:+ s2) +:+ s3 = s1 +:+ (s2 +:+ s3).
Proof. induction s1 as [|c s1 IH]; [done | rewrite !str_app_cons; simpl; by rewrite IH]. Qed.

Lemma str_length_app s1 s2 :
  String.length (s1 +:+ s2) = (String.length s1 + String.length s2)%nat.
Proof. induction s1 as [|c s1 IH]; [done | rewrite !str_app_cons; simpl; by rewrite IH]. Qed.

Lemma lower_app s1 s2 : Py.lower (s1 +:+ s2) = Py.lower s1 +:+ Py.lower s2.
Proof. induction s1 as [|c s1 IH]; [done | rewrite !str_app_cons; simpl; by rewrite IH]. Qed.

Lemma rstrip_app s1 s2 :
  Py.rstrip s2 ≠ "" -> Py.rstrip (s1 +:+ s2) = s1 +:+ Py.rstrip s2.
Proof.
  intros Hne. induction s1 as [|c s1 IH]; [done|].
  change (Py.rstrip (String c s1 +:+ s2)) with
    (match Py.rstrip (s1 +:+ s2) with
     | EmptyString => if Py.is_space c then EmptyString else String c EmptyString
     | r => String c r
     end).
  rewrite IH, str_app_cons. destruct (s1 +:+ Py.rstrip s2) eqn:Heq; [|done].
  destruct s1; [done | by rewrite str_app_cons in Heq].
Qed.

Lemma str_app_inv_tail s1 s2 t : s1 +:+ t = s2 +:+ t -> s1 = s2.
Proof.
  revert s2. induction s1 as [|c s1 IH]; intros [|d s2] Heq; [done| | |].
  - apply (f_equal String.length) in Heq.
    rewrite !str_length_app in Heq. simpl in Heq. lia.
  - apply (f_equal String.length) in Heq.
    rewrite !str_length_app in Heq. simpl in Heq. lia.
  - rewrite !str_app_cons in Heq. injection Heq as -> Heq. f_equal. by apply IH.
Qed.

Lemma str_app_inv_head s t1 t2 : s +:+ t1 = s +:+ t2 -> t1 = t2.
Proof.
  induction s as [|c s IH]; [done|]. rewrite !str_app_cons. intros [= Heq]. by apply IH.
Qed.

(** *** [lower] and [strip] *)

Lemma lower_char_idem c : Py.lower_char (Py.lower_char c) = Py.lower_char c.
Proof. destruct c as [[] [] [] [] [] [] [] []]; reflexivity. Qed.

Lemma is_space_lower_char c : Py.is_space (Py.lower_char c) = Py.is_space c.
Proof. destruct c as [[] [] [] [] [] [] [] []]; reflexivity. Qed.

Lemma lower_idem s : Py.lower (Py.lower s) = Py.lower s.
Proof. induction s as [|c s IH]; simpl; [done|]. by rewrite lower_char_idem, IH. Qed.

Lemma lower_empty s : Py.lower s = "" -> s = "".
Proof. by destruct s. Qed.

Lemma lstrip_lower s : Py.lstrip (Py.lower s) = Py.lower (Py.lstrip s).
Proof.
  induction s as [|c s IH]; simpl; [done|].
  rewrite is_space_lower_char. by destruct (Py.is_space c).
Qed.

Lemma rstrip_lower s : Py.rstrip (Py.lower s) = Py.lower (Py.rstrip s).
Proof.
  induction s as [|c s IH]; simpl; [done|].
  rewrite IH, is_space_lower_char.
  destruct (Py.rstrip s) as [|a r]; simpl; [|done].
  by destruct (Py.is_space c).
Qed.

Lemma strip_lower s : Py.strip (Py.lower s) = Py.lower (Py.strip s).
Proof. unfold Py.strip. by rewrite rstrip_lower, lstrip_lower. Qed.

Lemma lstrip_idem s : Py.lstrip (Py.lstrip s) = Py.lstrip s.
Proof.
  induction s as [|c s IH]; simpl; [done|].
  destruct (Py.is_space c) eqn:Hc; [done|]. simpl. by rewrite Hc.
Qed.

Lemma rstrip_idem s : Py.rstrip (Py.rstrip s) = Py.rstrip s.
Proof.
  induction s as [|c s IH]; simpl; [done|].
  destruct (Py.rstrip s) as [|a r] eqn:Hr.
  - destruct (Py.is_space c) eqn:Hc; simpl; [done|]. by rewrite Hc.
  - change (Py.rstrip (String c (String a r))) with
      (match Py.rstrip (String a r) with
       | EmptyString => if Py.is_space c then EmptyString else String c EmptyString
       | r' => String c r'
       end).
    by rewrite IH.
Qed.

Lemma rstrip_cons_fixed c s :
  Py.rstrip (String c s) = String c s -> Py.rstrip s = s.
Proof.
  simpl. destruct (Py.rstrip s) as [|a r] eqn:Hr.
  - destruct (Py.is_space c); [done|]. by intros [= <-].
  - by intros [= <-].
Qed.

Lemma rstrip_lstrip_fixed s :
  Py.rstrip s = s -> Py.rstrip (Py.lstrip s) = Py.lstrip s.
Proof.
  induction s as [|c s IH]; [done|]. intros Hs. simpl Py.lstrip.
  destruct (Py.is_space c); [|done].
  apply IH. by eapply rstrip_cons_fixed.
Qed.

Lemma lstrip_strip s : Py.lstrip (Py.strip s) = Py.strip s.
Proof. apply lstrip_idem. Qed.

Lemma rstrip_strip s : Py.rstrip (Py.strip s) = Py.strip s.
Proof. apply rstrip_lstrip_fixed, rstrip_idem. Qed.

Lemma strip_idem s : Py.strip (Py.strip s) = Py.strip s.
Proof. unfold Py.strip at 1. by rewrite rstrip_strip, lstrip_strip. Qed.

Lemma clean_lower_strip s : clean (Py.lower (Py.strip s)).
Proof.
  split; [|split].
  - by rewrite lstrip_lower, lstrip_strip.
  - by rewrite rstrip_lower, rstrip_strip.
  - apply lower_idem.
Qed.

Lemma clean_strip_lower s : clean s -> Py.lower (Py.strip s) = s.
Proof. intros (Hl & Hr & Hw). unfold Py.strip. by rewrite Hr, Hl. Qed.

Lemma clean_dot s : clean s -> clean ("." +:+ s).
Proof.
  intros (Hl & Hr & Hw). split; [|split].
  - reflexivity.
  - change (Py.rstrip ("." +:+ s)) with
      (match Py.rstrip s with
       | EmptyString => String "." EmptyString
       | r => String "." r
       end).
    rewrite Hr. by destruct s.
  - change (Py.lower ("." +:+ s)) with (String "." (Py.lower s)).
    by rewrite Hw.
Qed.

End string_facts.

(** ** Extension normalisation *)

Lemma normalize_clean ext : clean (_normalize_extension ext).
Proof.
  unfold _normalize_extension.
  pose proof (clean_lower_strip ext) as Hc.
  destruct (String.eqb _ ""); [done|].
  destruct (negb _); [by apply clean_dot | done].
Qed.

Lemma normalize_dotted ext :
  _normalize_extension ext = "" \/ Py.startswith "." (_normalize_extension ext) = true.
Proof.
  unfold _normalize_extension.
  destruct (String.eqb _ ""); [by left|]. right.
  destruct (Py.startswith "." (Py.lower (Py.strip ext))) eqn:Hs; simpl; [done|].
  reflexivity.
Qed.

Lemma normalize_fixed s :
  clean s -> (s = "" \/ Py.startswith "." s = true) -> _normalize_extension s = s.
Proof.
  intros Hc Hd. unfold _normalize_extension.
  rewrite (clean_strip_lower s Hc).
  destruct Hd as [-> | Hd]; [done|].
  rewrite Hd. simpl. by destruct (String.eqb s "") eqn:He; [apply String.eqb_eq in He|].
Qed.

(** A normalised extension is its own normal form. *)
Lemma normalize_normal_form s :
  _normalize_extension (_normalize_extension s) = _normalize_extension s.
Proof. apply normalize_fixed; [apply normalize_clean | apply normalize_dotted]. Qed.

(** C10. Extension normalisation is idempotent: normalising a normalised
    extension gives it back. *)
Theorem normalize_extension_idempotent (s : string) :
  _normalize_extension (_normalize_extension s) = _normalize_extension s.
Proof. apply normalize_fixed; [apply normalize_clean | apply normalize_dotted]. Qed.

(** ** Extension index *)

Section extension_index.

Implicit Types (m : gmap string string) (ms : list (string * list string)).

Lemma add_folder_lookup m folder exts k :
  add_folder m (folder, exts) !! k =
    if bool_decide (k ∈ _normalize_extension <$> exts) then Some folder else m !! k.
Proof.
  unfold add_folder. cbn [fst snd]. revert m.
  induction exts as [|e exts IH]; intros m.
  - done.
  - cbn [foldl]. rewrite IH, fmap_cons.
    destruct (decide (k ∈ _normalize_extension <$> exts)) as [Hin|Hin].
    + rewrite !bool_decide_eq_true_2; [done | by apply elem_of_cons; right | done].
    + rewrite (bool_decide_eq_false_2 _ Hin).
      destruct (decide (k = _normalize_extension e)) as [->|Hne].
      * rewrite lookup_insert_eq, bool_decide_eq_true_2; [done | apply elem_of_cons; by left].
      * rewrite lookup_insert_ne by done.
        rewrite bool_decide_eq_false_2; [done|].
        intros [?|?]%elem_of_cons; done.
Qed.

Lemma build_snoc ms entry :
  _build_extension_map (ms ++ [entry]) = add_folder (_build_extension_map ms) entry.
Proof. unfold _build_extension_map. by rewrite foldl_app. Qed.

(** Categories written later leave a key alone when none of their
    extensions normalises to it. *)
Lemma add_folders_other m ms k :
  (forall folder exts ext,
      (folder, exts) ∈ ms -> ext ∈ exts -> _normalize_extension ext ≠ k) ->
  foldl add_folder m ms !! k = m !! k.
Proof.
  revert m. induction ms as [|[folder exts] ms IH]; intros m Hother; simpl; [done|].
  rewrite IH.
  - rewrite add_folder_lookup, bool_decide_eq_false_2; [done|].
    intros (ext & Hk & Hin)%list_elem_of_fmap.
    eapply Hother; [apply elem_of_cons; by left | done | done].
  - intros f es e Hf He. eapply Hother; [apply elem_of_cons; by right | done].
Qed.

(** Every key of the index is the normal form of a configured extension,
    and its value is a category that lists this extension. *)
Lemma build_lookup_Some ms k folder :
  _build_extension_map ms !! k = Some folder ->
  exists exts ext,
    (folder, exts) ∈ ms /\ ext ∈ exts /\ k = _normalize_extension ext.
Proof.
  induction ms as [|[f es] ms IH] using rev_ind; [done|].
  rewrite build_snoc, add_folder_lookup. case_bool_decide as Hin.
  - intros [= ->]. apply list_elem_of_fmap in Hin as (ext & -> & Hin).
    exists es, ext. split; [|done]. apply elem_of_app. right. by apply list_elem_of_singleton.
  - intros (exts & ext & Hm & He & ->)%IH. exists exts, ext.
    split; [|done]. apply elem_of_app. by left.
Qed.

Lemma build_keys_normalised ms k :
  is_Some (_build_extension_map ms !! k) -> _normalize_extension k = k.
Proof.
  intros [folder (exts & ext & _ & _ & ->)%build_lookup_Some].
  apply normalize_normal_form.
Qed.

End extension_index.

(** C5. When an extension is listed under several categories, the index
    maps its normal form to the last category, in the mapping's iteration
    order, that lists an extension with this normal form; building the index
    is a total function, so a duplicate raises nothing. *)
Theorem build_extension_map_last_writer_wins
    (before after : list (string * list string))
    (folder : string) (exts : list string) (ext : string) :
  ext ∈ exts ->
  (forall folder' exts' ext',
      (folder', exts') ∈ after -> ext' ∈ exts' ->
      _normalize_extension ext' ≠ _normalize_extension ext) ->
  _build_extension_map (before ++ (folder, exts) :: after)
    !! _normalize_extension ext = Some folder.
Proof.
  intros Hin Hafter. unfold _build_extension_map.
  rewrite foldl_app. simpl. rewrite add_folders_other by done.
  rewrite add_folder_lookup, bool_decide_eq_true_2; [done|].
  by apply list_elem_of_fmap_2.
Qed.

(** Here "jpg" is listed under Images and, in another spelling, under
    Photos, the later category. *)
Lemma build_extension_map_last_writer_wins_witness :
  _build_extension_map ([("Images", ["jpg"; "png"])] ++ ("Photos", ["raw"; " .JPG"]) :: [("Docs", ["pdf"])])
    !! _normalize_extension " .JPG" = Some "Photos".
Proof.
  apply build_extension_map_last_writer_wins.
  - apply elem_of_cons; right. apply elem_of_cons; by left.
  - intros folder' exts' ext' Hf He.
    apply list_elem_of_singleton in Hf as [= -> ->].
    apply list_elem_of_singleton in He as ->. vm_compute. discriminate.
Defined.

(** ** Classifier *)

Section classifier.

Implicit Types (m : gmap string string) (s : string) (l : list string).

(** *** Names without a dot *)

Lemma no_dot_endswith s : Py.contains "." s = false -> Py.endswith_char "." s = false.
Proof.
  induction s as [|c s IH]; [done|]. simpl.
  intros [Hc Hs]%orb_false_elim. destruct s; [done | by apply IH].
Qed.

Lemma no_dot_lstrip s : Py.contains "." s = false -> Py.lstrip_char "." s = s.
Proof. destruct s as [|c s]; [done|]. simpl. by intros [-> _]%orb_false_elim. Qed.

Lemma no_dot_split s : Py.contains "." s = false -> Py.split "." s = [s].
Proof.
  induction s as [|c s IH]; [done|]. simpl.
  intros [-> Hs]%orb_false_elim. by rewrite IH.
Qed.

Lemma no_dot_suffixes s : Py.contains "." s = false -> PurePath.suffixes s = [].
Proof.
  intros Hs. unfold PurePath.suffixes.
  by rewrite no_dot_endswith, no_dot_lstrip, no_dot_split.
Qed.

(** *** The candidate list *)

Lemma candidates_joined_tails l :
  map (fun i => Py.join (drop i l)) (seq 0 (length l)) = joined_tails l.
Proof.
  induction l as [|x l IH]; [done|].
  cbn [length seq map joined_tails]. f_equal.
  rewrite <- IH, <- fmap_S_seq. by rewrite <- list_fmap_compose.
Qed.

Lemma extension_candidates_eq (path : Path) :
  _extension_candidates path =
    match map Py.lower (PurePath.suffixes (name path)) with
    | [] => [""]
    | sfx => joined_tails sfx
    end.
Proof.
  unfold _extension_candidates.
  destruct (map Py.lower _) as [|x l] eqn:Heq; [done|].
  apply candidates_joined_tails.
Qed.

Lemma suffixes_dotted_lower name :
  Forall dotted_lower (map Py.lower (PurePath.suffixes name)).
Proof.
  unfold PurePath.suffixes. destruct (Py.endswith_char _ _); [constructor|].
  induction (tail _) as [|x l IH]; [constructor|].
  constructor; [|done]. split; [reflexivity|].
  change (Py.lower (String "." x)) with (String "." (Py.lower x)).
  change (Py.lower (String "." (Py.lower x)))
    with (String "." (Py.lower (Py.lower x))).
  by rewrite lower_idem.
Qed.

Lemma join_lower l : Forall dotted_lower l -> Py.lower (Py.join l) = Py.join l.
Proof.
  induction 1 as [|x l [_ Hx] _ IH]; [done|].
  cbn [Py.join foldr]. rewrite lower_app, Hx. by f_equal.
Qed.

Lemma join_dotted x l :
  dotted_lower x -> exists t, Py.join (x :: l) = String "." t.
Proof.
  intros [Hx _]. destruct x as [|c x]; [done|]. cbn [Py.startswith] in Hx.
  apply andb_prop in Hx as [Hc _]. apply Ascii.eqb_eq in Hc as <-.
  by eexists.
Qed.

Lemma joined_tails_len_desc l : len_desc (joined_tails l).
Proof.
  induction l as [|x l IH]; [done|]. split; [|done].
  destruct l as [|y l]; [done|].
  cbn [joined_tails Py.join foldr]. rewrite (str_length_app x). lia.
Qed.

Lemma insert_by_len_head x l :
  len_desc (x :: l) -> Py.insert_by_len x l = x :: l.
Proof.
  destruct l as [|y l]; [done|]. intros [Hle _]. simpl.
  by rewrite (proj2 (Nat.leb_le _ _) Hle).
Qed.

(** The stable sort leaves a list alone whose lengths already descend. *)
Lemma sorted_len_desc_id l : len_desc l -> Py.sorted_len_desc l = l.
Proof.
  induction l as [|x l IH]; [done|]. intros Hd.
  cbn [Py.sorted_len_desc foldr].
  change (foldr Py.insert_by_len [] l) with (Py.sorted_len_desc l).
  rewrite IH by apply Hd. by apply insert_by_len_head.
Qed.

Lemma sorted_candidates (path : Path) :
  Py.sorted_len_desc (_extension_candidates path) = _extension_candidates path.
Proof.
  apply sorted_len_desc_id. rewrite extension_candidates_eq.
  destruct (map Py.lower _); [done | apply joined_tails_len_desc].
Qed.

Lemma joined_tails_head l c rest :
  joined_tails l = c :: rest -> c = Py.join l.
Proof. destruct l; [done|]. by intros [= <- _]. Qed.

(** Every candidate that stands before [c] in the list ends in [c]. *)
Lemma joined_tails_longer l longer c shorter :
  joined_tails l = longer ++ c :: shorter ->
  Forall dotted_lower l ->
  Forall (fun c' => (exists a, c' = String "." a +:+ c) /\ Py.lower c' = c') longer.
Proof.
  revert longer. induction l as [|x l IH]; intros longer Heq Hl.
  { by destruct longer. }
  destruct longer as [|c' longer]; [constructor|].
  injection Heq as Hc' Heq. inversion Hl as [|? ? Hx Hl']; subst.
  specialize (IH _ Heq Hl'). constructor; [|done].
  split; [|by apply (join_lower (x :: l))].
  destruct (join_dotted x [] Hx) as [t Ht].
  cbn [Py.join foldr] in Ht. rewrite str_app_nil_r in Ht. subst x.
  cbn [Py.join foldr]. change (foldr String.append "" l) with (Py.join l).
  destruct longer as [|c'' longer].
  - apply joined_tails_head in Heq as ->. by exists t.
  - apply Forall_cons_1 in IH as [[[a Ha] _] _].
    apply joined_tails_head in Heq as Hj. rewrite <- Hj, Ha.
    exists (t +:+ String "." a). by rewrite !str_app_cons, str_app_assoc.
Qed.

Lemma first_match_skip m longer rest :
  Forall (fun c' => m !! _normalize_extension c' = None) longer ->
  first_match m (longer ++ rest) = first_match m rest.
Proof. induction 1 as [|c' longer Hc' _ IH]; [done|]. simpl. by rewrite Hc'. Qed.

(** A candidate that ends in a normalised, non-empty key is itself in
    normal form. *)
Lemma longer_candidate_normalised a c :
  _normalize_extension c = c -> c ≠ "" ->
  Py.lower (String "." a +:+ c) = String "." a +:+ c ->
  _normalize_extension (String "." a +:+ c) = String "." a +:+ c.
Proof.
  intros Hc Hne Hlow.
  assert (clean c) as (_ & Hr & _) by (rewrite <- Hc; apply normalize_clean).
  apply normalize_fixed; [|by right].
  split; [reflexivity|]. split; [|done].
  rewrite rstrip_app; rewrite Hr; done.
Qed.

Lemma candidates_longer_normalised (path : Path) longer c shorter :
  _extension_candidates path = longer ++ c :: shorter ->
  _normalize_extension c = c ->
  Forall (fun c' => _normalize_extension c' = c') longer.
Proof.
  rewrite extension_candidates_eq. intros Heq Hc.
  pose proof (suffixes_dotted_lower (name path)) as Hsfx.
  destruct (map Py.lower _) as [|x l] eqn:Hl.
  { destruct longer as [|? [|? ?]]; [constructor | done | done]. }
  pose proof (joined_tails_longer _ _ _ _ Heq Hsfx) as Hlonger.
  assert (c ≠ "") as Hne.
  { clear Hlonger. revert Hsfx Heq. generalize (x :: l). clear.
    intros l Hl. revert longer. induction Hl as [|y l Hy Hl IH]; intros longer Heq.
    - by destruct longer.
    - destruct longer as [|c' longer].
      + injection Heq as Hj _. destruct (join_dotted y l Hy) as [t Ht].
        change (Py.join (y :: l) = c) in Hj. rewrite Ht in Hj. by subst c.
      + injection Heq as _ Heq. by eapply IH. }
  eapply Forall_impl; [exact Hlonger|].
  intros c' [[a ->] Hlow]. by apply longer_candidate_normalised.
Qed.

(** The first candidate is the whole compound suffix, lower-cased. *)
Lemma candidates_head (path : Path) :
  exists shorter,
    _extension_candidates path =
      Py.join (map Py.lower (PurePath.suffixes (name path))) :: shorter.
Proof.
  rewrite extension_candidates_eq.
  destruct (map Py.lower _) as [|x l]; by eexists.
Qed.

(** Longest match: when a candidate [c] is a key of the index and no longer
    candidate is, the classifier returns the category of [c]. *)
Lemma decide_folder_longest_key ms (path : Path) other folder longer shorter c :
  _extension_candidates path = longer ++ c :: shorter ->
  (forall c', c' ∈ longer -> _build_extension_map ms !! c' = None) ->
  _build_extension_map ms !! c = Some folder ->
  _decide_folder path (_build_extension_map ms) other = folder.
Proof.
  intros Hcands Hlonger Hc. unfold _decide_folder.
  assert (_normalize_extension c = c) as Hnorm by (by eapply build_keys_normalised).
  rewrite sorted_candidates, Hcands, first_match_skip.
  - simpl. by rewrite Hnorm, Hc.
  - pose proof (candidates_longer_normalised _ _ _ _ Hcands Hnorm) as Hn.
    apply Forall_forall. intros c' Hin.
    rewrite (proj1 (Forall_forall _ _) Hn c' Hin). by apply Hlonger.
Qed.

End classifier.



(** With a longer suffix that is no key, the longest key still decides. *)
Example decide_folder_longest_key_ex :
  _decide_folder ["Downloads"; "site.backup.tar.gz"]
    (_build_extension_map [("Compressed", ["gz"]); ("Tarballs", ["tar.gz"])]) "Other"
  = "Tarballs".
Proof.
  apply (decide_folder_longest_key _ _ _ _ [".backup.tar.gz"] [".gz"] ".tar.gz").
  - reflexivity.
  - intros c' ->%list_elem_of_singleton. vm_compute. reflexivity.
  - vm_compute. reflexivity.
Qed.

(** C8. A file name without a dot has the empty string as its single
    candidate, and is classified under the wildcard entry of the index when
    there is one and under the catch-all category otherwise. *)
Theorem decide_folder_no_extension
    (path : Path) (ext_map : gmap string string) (other : string) :
  Py.contains "." (name path) = false ->
  _extension_candidates path = [""] /\
  _decide_folder path ext_map other =
    match ext_map !! "" with Some folder => folder | None => other end.
Proof.
  intros Hdot.
  assert (_extension_candidates path = [""]) as Hc.
  { unfold _extension_candidates. by rewrite no_dot_suffixes. }
  split; [done|]. unfold _decide_folder. rewrite Hc. simpl.
  change (_normalize_extension "") with "".
  by destruct (ext_map !! "").
Qed.

Lemma decide_folder_no_extension_witness :
  _extension_candidates ["Downloads"; "README"] = [""] /\
  _decide_folder ["Downloads"; "README"]
    (_build_extension_map [("Plain", [""; "txt"])]) "Other" =
    match _build_extension_map [("Plain", [""; "txt"])] !! "" with
    | Some folder => folder
    | None => "Other"
    end.
Proof. apply decide_folder_no_extension. reflexivity. Defined.

(** ** Destination resolver *)

Section resolver.

Implicit Types (w : World) (dest_dir : Path) (stem suffix filename : string).

(** Distinct counters give distinct names, and so distinct paths. *)
Lemma numbered_inj stem suffix : Inj (=) (=) (numbered stem suffix).
Proof.
  intros i j Heq. unfold numbered in Heq.
  apply str_app_inv_head in Heq. rewrite !str_app_cons in Heq. injection Heq as Heq.
  apply (str_app_inv_head "") in Heq. apply str_app_inv_tail in Heq. by apply (inj pretty) in Heq.
Qed.

Lemma candidate_inj dest_dir stem suffix :
  Inj (=) (=) (fun i => dest_dir </> numbered stem suffix i).
Proof.
  intros i j Heq. unfold truediv in Heq.
  apply app_inv_head_iff in Heq. injection Heq as Heq.
  by apply numbered_inj in Heq.
Qed.

(** Pigeonhole: a tree cannot hold more distinct paths than its size. *)
Lemma taken_bound (t : gmap Path node) (f : nat -> Path) (start n : nat) :
  Inj (=) (=) f ->
  (forall j, (j < n)%nat -> is_Some (t !! f (start + j)%nat)) ->
  (n <= size t)%nat.
Proof.
  intros Hinj Htaken.
  set (X := list_to_set (f <$> seq start n) : gset Path).
  assert (size X = n) as Hsize.
  { unfold X. rewrite size_list_to_set, length_fmap, length_seq; [done|].
    apply NoDup_fmap_2; [done | apply NoDup_seq]. }
  rewrite <- Hsize, <- (size_dom t). apply subseteq_size.
  intros p (i & -> & Hi)%elem_of_list_to_set%list_elem_of_fmap.
  apply elem_of_seq in Hi. apply elem_of_dom.
  replace i with (start + (i - start))%nat by lia. apply Htaken. lia.
Qed.

(** What the loop does with [fuel] probes: it stops at the first free
    counter, or runs out when all [fuel] counters are taken. *)
Lemma probe_spec fuel dest_dir stem suffix index w :
  (probe fuel dest_dir stem suffix index w = (Stuck, w) /\
   forall j, (j < fuel)%nat ->
             is_Some (tree w !! (dest_dir </> numbered stem suffix (index + j))))
  \/
  (exists k, (k < fuel)%nat /\
     probe fuel dest_dir stem suffix index w =
       (Return (dest_dir </> numbered stem suffix (index + k)), w) /\
     tree w !! (dest_dir </> numbered stem suffix (index + k)) = None /\
     forall j, (j < k)%nat ->
               is_Some (tree w !! (dest_dir </> numbered stem suffix (index + j)))).
Proof.
  revert index. induction fuel as [|fuel IH]; intros index.
  { left. split; [done | intros j Hj; lia]. }
  cbn [probe]. unfold bind, Fs.exists_, gets.
  destruct (tree w !! (dest_dir </> numbered stem suffix index)) as [n|] eqn:Hhere.
  - rewrite bool_decide_eq_true_2 by eauto. cbn [negb].
    destruct (IH (S index)) as [[Hstuck Hall] | (k & Hk & Hret & Hfree & Hall)].
    + left. split; [done|]. intros [|j] Hj.
      * rewrite Nat.add_0_r. eauto.
      * replace (index + S j)%nat with (S index + j)%nat by lia. apply Hall. lia.
    + right. exists (S k). replace (index + S k)%nat with (S index + k)%nat by lia.
      split_and!; [lia | done | done |]. intros [|j] Hj.
      * rewrite Nat.add_0_r. eauto.
      * replace (index + S j)%nat with (S index + j)%nat by lia. apply Hall. lia.
  - rewrite bool_decide_eq_false_2 by (by intros [? ?]). cbn [negb].
    right. exists 0%nat. rewrite Nat.add_0_r.
    split_and!; [lia | done | done | intros j Hj; lia].
Qed.

(** One probe more than the tree has entries always reaches a free counter. *)
Lemma probe_finds dest_dir stem suffix index w :
  exists k,
    probe (S (size (tree w))) dest_dir stem suffix index w =
      (Return (dest_dir </> numbered stem suffix (index + k)), w) /\
    tree w !! (dest_dir </> numbered stem suffix (index + k)) = None /\
    forall j, (j < k)%nat ->
              is_Some (tree w !! (dest_dir </> numbered stem suffix (index + j))).
Proof.
  destruct (probe_spec (S (size (tree w))) dest_dir stem suffix index w)
    as [[_ Hall] | (k & _ & Hk)]; [|by exists k].
  pose proof (taken_bound (tree w) _ index (S (size (tree w)))
                (candidate_inj dest_dir stem suffix) Hall). lia.
Qed.

(** A free name is returned as it is. *)
Lemma resolve_free dest_dir filename w :
  tree w !! (dest_dir </> filename) = None ->
  _resolve_destination dest_dir filename w = (Return (dest_dir </> filename), w).
Proof.
  intros Hfree. unfold _resolve_destination, bind, Fs.exists_, gets.
  rewrite Hfree, bool_decide_eq_false_2; [done | by intros [? ?]].
Qed.

(** A taken name is replaced by the numbered name of the first counter,
    from 1 on, whose path is free. *)
Lemma resolve_taken dest_dir filename w :
  is_Some (tree w !! (dest_dir </> filename)) ->
  let stem := PurePath.stem filename in
  let suffix := Py.join (PurePath.suffixes filename) in
  exists index, (1 <= index)%nat /\
    _resolve_destination dest_dir filename w =
      (Return (dest_dir </> numbered stem suffix index), w) /\
    tree w !! (dest_dir </> numbered stem suffix index) = None /\
    forall j, (1 <= j < index)%nat ->
              is_Some (tree w !! (dest_dir </> numbered stem suffix j)).
Proof.
  intros Htaken stem suffix.
  destruct (probe_finds dest_dir stem suffix 1 w) as (k & Hret & Hfree & Hall).
  exists (1 + k)%nat. split_and!; [lia | | done |].
  - unfold _resolve_destination, bind, Fs.exists_, gets.
    by rewrite bool_decide_eq_true_2.
  - intros j Hj. replace j with (1 + (j - 1))%nat by lia. apply Hall. lia.
Qed.

Lemma resolve_returns dest_dir filename w :
  exists destination,
    _resolve_destination dest_dir filename w = (Return destination, w) /\
    tree w !! destination = None.
Proof.
  destruct (tree w !! (dest_dir </> filename)) as [n|] eqn:Hn.
  - destruct (resolve_taken dest_dir filename w) as (i & _ & Hret & Hfree & _); eauto.
  - exists (dest_dir </> filename). by rewrite resolve_free.
Qed.

(** *** The directory with [n] numbered collisions *)

Lemma collisions_lookup n i :
  tree (collisions n) !! (["Images"] </> numbered "photo" ".jpg" i) =
    if bool_decide (1 <= i <= n)%nat then Some (File 0) else None.
Proof.
  unfold collisions, truediv. cbn [tree app].
  rewrite !list_to_map_cons. cbn [fst snd].
  rewrite !lookup_insert_ne; [|cbv [numbered String.append]; discriminate..].
  case_bool_decide as Hi.
  - apply elem_of_list_to_map_1'.
    + by intros y (j & [= _ <-] & _)%list_elem_of_fmap.
    + apply list_elem_of_fmap. exists i. split; [done|]. apply elem_of_seq. lia.
  - apply not_elem_of_list_to_map_1.
    rewrite <- list_fmap_compose.
    intros (j & Heq & Hj%elem_of_seq)%list_elem_of_fmap. cbn [compose fst] in Heq.
    assert (numbered "photo" ".jpg" i = numbered "photo" ".jpg" j) as Hij
      by congruence.
    apply numbered_inj in Hij. lia.
Qed.

Lemma resolve_collisions n :
  _resolve_destination ["Images"] "photo.jpg" (collisions n) =
    (Return (["Images"] </> numbered "photo" ".jpg" (S n)), collisions n).
Proof.
  destruct (resolve_taken ["Images"] "photo.jpg" (collisions n))
    as (i & Hi & Hret & Hfree & Hall).
  { unfold collisions, truediv. cbn [tree app]. rewrite !list_to_map_cons. cbn [fst snd].
    rewrite !lookup_insert_ne by discriminate. rewrite lookup_insert_eq. eauto. }
  change (PurePath.stem "photo.jpg") with "photo" in *.
  change (Py.join (PurePath.suffixes "photo.jpg")) with ".jpg" in *.
  rewrite collisions_lookup in Hfree. case_bool_decide as Hin; [done|].
  destruct (decide (i = S n)) as [->|Hne]; [done|].
  destruct (Hall (S n)) as [x Hx]; [lia|].
  rewrite collisions_lookup, bool_decide_eq_false_2 in Hx; [done | lia].
Qed.

End resolver.

(** C2. The resolver does not split a name into stem and full extension:
    [Path.stem] drops the last suffix only, while the joined suffixes are
    appended whole. With archive.tar.gz taken, the name it probes and
    returns is archive.tar-1.tar.gz and not archive-1.tar.gz. *)
Theorem resolve_destination_compound_name :
  _resolve_destination ["Archives"] "archive.tar.gz" archive_taken =
    (Return ["Archives"; "archive.tar-1.tar.gz"], archive_taken)
  /\ PurePath.stem "archive.tar.gz" = "archive.tar"
  /\ Py.join (PurePath.suffixes "archive.tar.gz") = ".tar.gz".
Proof. split; [|split]; vm_compute; reflexivity. Qed.

(** C9, as stated, fails: with photo.jpg and photo-1.jpg up to
    photo-100000.jpg all taken, the resolver does not stop at a cap and
    fail; it returns photo-100001.jpg. *)
Lemma resolve_destination_cap_counterexample :
  _resolve_destination ["Images"] "photo.jpg" (collisions 100000) =
    (Return ["Images"; "photo-100001.jpg"], collisions 100000).
Proof.
  rewrite resolve_collisions. reflexivity.
Qed.

(** C9, amended. The counter has no cap: when the desired name and its
    numbered variants 1 to [n] are all taken and variant [n + 1] is free, the
    resolver returns variant [n + 1], for every [n] (100000 as well); it does
    not give up at a bound. The existence checks are those of the modelled
    tree, which always answer. *)
Theorem resolve_destination_no_cap
    (dest_dir : Path) (filename : string) (w : World) (n : nat) :
  is_Some (tree w !! (dest_dir </> filename)) ->
  (forall j, (1 <= j <= n)%nat ->
     is_Some (tree w !! (dest_dir </>
                         numbered (PurePath.stem filename)
                           (Py.join (PurePath.suffixes filename)) j))) ->
  tree w !! (dest_dir </>
             numbered (PurePath.stem filename)
               (Py.join (PurePath.suffixes filename)) (S n)) = None ->
  _resolve_destination dest_dir filename w =
    (Return (dest_dir </>
             numbered (PurePath.stem filename)
               (Py.join (PurePath.suffixes filename)) (S n)), w).
Proof.
  intros Htaken Hall Hfree.
  destruct (resolve_taken dest_dir filename w Htaken)
    as (index & Hindex & Hret & Hfree' & Hall').
  assert (index = S n) as ->; [|done].
  destruct (decide (index <= n)%nat) as [Hle|Hgt].
  { destruct (Hall index (conj Hindex Hle)) as [x Hx]. congruence. }
  destruct (decide (S n < index)%nat) as [Hlt|Hge]; [|lia].
  destruct (Hall' (S n)) as [x Hx]; [lia | congruence].
Qed.

(** photo.jpg and photo-1.jpg to photo-3.jpg are taken: photo-4.jpg. *)
Lemma resolve_destination_no_cap_witness :
  _resolve_destination ["Images"] "photo.jpg" (collisions 3) =
    (Return (["Images"] </>
             numbered (PurePath.stem "photo.jpg")
               (Py.join (PurePath.suffixes "photo.jpg")) 4), collisions 3).
Proof.
  apply (resolve_destination_no_cap ["Images"] "photo.jpg" (collisions 3) 3).
  - vm_compute. eexists. reflexivity.
  - intros j Hj.
    assert (j = 1 \/ j = 2 \/ j = 3)%nat as [-> | [-> | ->]] by lia;
      vm_compute; eexists; reflexivity.
  - vm_compute. reflexivity.
Defined.

(** ** Settling filter *)

(** Unfold the monad and the read-only calls, and run what is left. *)
Ltac run_reads :=
  unfold Fs.exists_, Fs.is_file, Fs.is_dir, Fs.time, Fs.stat_mtime;
  unfold bind, try_except, ret, raise, stuck, gets;
  cbv beta iota.

Section settling.

Implicit Types (w : World) (path : Path) (config : Config).

(** The filter only reads the world. *)
Lemma should_skip_reads path config w :
  exists skip, _should_skip path config w = (Return skip, w).
Proof.
  unfold _should_skip.
  repeat (case_match; [by eexists|]).
  run_reads.
  destruct (tree w !! path) as [[mtime|wr]|] eqn:E; cbn; rewrite ?E; by eexists.
Qed.

(** A file that the filter lets through is a regular file of the tree. *)
Lemma should_skip_false_file path config w w' :
  _should_skip path config w = (Return false, w') ->
  exists mtime, tree w !! path = Some (File mtime).
Proof.
  unfold _should_skip.
  repeat (case_match; [done|]).
  run_reads.
  destruct (tree w !! path) as [[mtime|wr]|] eqn:E; cbn; [by eexists | done | done].
Qed.

(** Past the three name rules, the filter compares the age of a regular
    file with the minimum age. *)
Lemma should_skip_age path config w mtime :
  name path ∉ SKIP_NAMES ->
  ignore_hidden config && Py.startswith "." (name path) = false ->
  Py.lower (PurePath.suffix (name path)) ∉ TRANSIENT_EXTENSIONS ->
  tree w !! path = Some (File mtime) ->
  _should_skip path config w =
    (Return (clock w - mtime <? min_age_seconds config), w).
Proof.
  intros Hskip Hhidden Htransient Hfile. unfold _should_skip.
  rewrite (bool_decide_eq_false_2 _ Hskip), Hhidden,
    (bool_decide_eq_false_2 _ Htransient).
  run_reads. rewrite Hfile. cbn. by rewrite Hfile.
Qed.

End settling.

(** C6. A regular file that passes the name rules of the settling filter
    (skip-set, hidden-file policy, transient extensions) is skipped if and
    only if the time since its last modification is strictly less than the
    configured minimum age; the filter leaves the world as it is. *)
Theorem should_skip_iff_too_young
    (path : Path) (config : Config) (w : World) (mtime : Z) :
  name path ∉ SKIP_NAMES ->
  ignore_hidden config && Py.startswith "." (name path) = false ->
  Py.lower (PurePath.suffix (name path)) ∉ TRANSIENT_EXTENSIONS ->
  tree w !! path = Some (File mtime) ->
  exists skip,
    _should_skip path config w = (Return skip, w) /\
    (skip = true <-> clock w - mtime < min_age_seconds config).
Proof.
  intros Hskip Hhidden Htransient Hfile.
  exists (clock w - mtime <? min_age_seconds config). split.
  - by apply should_skip_age.
  - apply Z.ltb_lt.
Qed.

(** report.pdf, modified at 98, is two ticks old at 100, less than the
    minimum age 3. *)
Lemma should_skip_iff_too_young_witness :
  exists skip,
    _should_skip (home_downloads </> "report.pdf") (default_config true false)
      (downloads_world true [("report.pdf", 98)]) =
      (Return skip, downloads_world true [("report.pdf", 98)]) /\
    (skip = true <-> 100 - 98 < 3).
Proof.
  apply (should_skip_iff_too_young (home_downloads </> "report.pdf")
           (default_config true false) (downloads_world true [("report.pdf", 98)]) 98).
  - refine (proj1 (bool_decide_eq_false _) _). vm_compute. reflexivity.
  - reflexivity.
  - refine (proj1 (bool_decide_eq_false _) _). vm_compute. reflexivity.
  - vm_compute. reflexivity.
Defined.

(** ** Mover *)

Section mover.

Implicit Types (w : World) (path : Path) (config : Config)
  (ext_map : gmap string string).

Lemma organize_file_eq path config ext_map :
  organize_file path config ext_map =
    (skip <- _should_skip path config ;;
     if skip then ret None else relocate path config ext_map).
Proof. reflexivity. Qed.

Lemma organize_file_skipped path config ext_map w :
  _should_skip path config w = (Return true, w) ->
  organize_file path config ext_map w = (Return None, w).
Proof. intros Hskip. rewrite organize_file_eq. unfold bind. by rewrite Hskip. Qed.

Lemma organize_file_eligible path config ext_map w :
  _should_skip path config w = (Return false, w) ->
  organize_file path config ext_map w = relocate path config ext_map w.
Proof. intros Hskip. rewrite organize_file_eq. unfold bind. by rewrite Hskip. Qed.


(** *** Creating directories only adds directories *)

Lemma grows_refl w : grows w w.
Proof. by repeat split. Qed.

Lemma grows_trans w1 w2 w3 : grows w1 w2 -> grows w2 w3 -> grows w1 w3.
Proof.
  intros (Hc1 & Ho1 & Ht1 & Hf1) (Hc2 & Ho2 & Ht2 & Hf2).
  split_and!; [congruence | congruence | by etrans | eauto].
Qed.

Lemma grows_insert_dir w p :
  tree w !! p = None -> grows w (set_tree (<[p := Dir true]> (tree w)) w).
Proof.
  intros Hfree. split_and!; [done | done | by apply insert_subseteq |].
  intros p' mtime. cbn [tree set_tree].
  destruct (decide (p = p')) as [<-|Hne].
  - by rewrite lookup_insert_eq.
  - by rewrite lookup_insert_ne.
Qed.

Lemma os_mkdir_grows p w r w' :
  Fs.os_mkdir p w = (r, w') -> r ≠ Stuck /\ grows w w'.
Proof.
  unfold Fs.os_mkdir.
  destruct (tree w !! parent p) as [[mtime|writable]|];
    [| case_bool_decide as Hp; [|destruct writable] |];
    intros [= <- <-]; (split; [done|]); try apply grows_refl.
  apply grows_insert_dir. by apply eq_None_not_Some.
Qed.

(** The handler of both [mkdir] forms reads the world and raises or returns. *)
Lemma mkdir_handler_reads p exist_ok e w :
  (d <- Fs.is_dir p ;; if negb exist_ok || negb d then raise e else ret tt) w
    = (Raise e, w) \/
  (d <- Fs.is_dir p ;; if negb exist_ok || negb d then raise e else ret tt) w
    = (Return tt, w).
Proof. run_reads. destruct (negb exist_ok || negb _); auto. Qed.

Lemma mkdir_here_grows p exist_ok w r w' :
  Fs.mkdir_here p exist_ok w = (r, w') -> r ≠ Stuck /\ grows w w'.
Proof.
  unfold Fs.mkdir_here, try_except.
  destruct (Fs.os_mkdir p w) as [r0 w0] eqn:Hos.
  apply os_mkdir_grows in Hos as [Hns Hg].
  destruct r0 as [[]|e|]; [by intros [= <- <-] | | done].
  cbn [is_OSError]. destruct (is_FileNotFoundError e).
  - by intros [= <- <-].
  - destruct (mkdir_handler_reads p exist_ok e w0) as [-> | ->]; by intros [= <- <-].
Qed.

Lemma mkdir_rev_grows rp parents exist_ok w r w' :
  Fs.mkdir_rev rp parents exist_ok w = (r, w') -> r ≠ Stuck /\ grows w w'.
Proof.
  revert parents exist_ok w r w'.
  induction rp as [|c rp IH]; intros parents exist_ok w r w';
    cbn [Fs.mkdir_rev]; unfold try_except;
    destruct (Fs.os_mkdir _ w) as [r0 w0] eqn:Hos;
    apply os_mkdir_grows in Hos as [Hns Hg];
    (destruct r0 as [[]|e|]; [by intros [= <- <-] | | done]);
    cbn [is_OSError]; destruct (is_FileNotFoundError e).
  - by intros [= <- <-].
  - destruct (mkdir_handler_reads (rev []) exist_ok e w0) as [-> | ->];
      by intros [= <- <-].
  - destruct (negb parents); [by intros [= <- <-]|].
    unfold bind. destruct (Fs.mkdir_rev rp true true w0) as [r1 w1] eqn:Hrec.
    apply IH in Hrec as [Hns1 Hg1].
    destruct r1 as [[]|e1|]; [| intros [= <- <-] | done].
    + intros [Hns2 Hg2]%mkdir_here_grows. split; [done|].
      eauto using grows_trans.
    + split; [done | eauto using grows_trans].
  - destruct (mkdir_handler_reads (rev (c :: rp)) exist_ok e w0) as [-> | ->];
      by intros [= <- <-].
Qed.

Lemma mkdir_grows p parents exist_ok w r w' :
  Fs.mkdir p parents exist_ok w = (r, w') -> r ≠ Stuck /\ grows w w'.
Proof. apply mkdir_rev_grows. Qed.

(** *** Moving a regular file *)

Lemma bind_not_stuck {A B} (m : M A) (k : A -> M B) w :
  (m w).1 ≠ Stuck ->
  (forall a w1, m w = (Return a, w1) -> (k a w1).1 ≠ Stuck) ->
  (bind m k w).1 ≠ Stuck.
Proof.
  unfold bind. destruct (m w) as [[a|e|] w1]; [|done..].
  intros _ Hk. by apply Hk.
Qed.

Lemma try_except_not_stuck {A} (m : M A) handles handler w :
  (m w).1 ≠ Stuck ->
  (forall e w1, m w = (Raise e, w1) -> (handler e w1).1 ≠ Stuck) ->
  (try_except m handles handler w).1 ≠ Stuck.
Proof.
  unfold try_except. destruct (m w) as [[a|e|] w1]; [done | | done].
  intros _ Hh. destruct (handles e); [by apply Hh | done].
Qed.

Lemma os_rename_file src dst mtime w :
  tree w !! src = Some (File mtime) ->
  (Fs.os_rename src dst w).1 ≠ Stuck /\
  forall e w1, Fs.os_rename src dst w = (Raise e, w1) -> w1 = w.
Proof.
  intros Hsrc. unfold Fs.os_rename. rewrite Hsrc.
  split; [|intros e w1]; repeat case_match; naive_solver.
Qed.

Lemma copy2_not_stuck src dst w : (Shutil.copy2 src dst w).1 ≠ Stuck.
Proof.
  unfold Shutil.copy2, Shutil.copyfile_stat. run_reads.
  repeat case_match; done.
Qed.

Lemma os_unlink_not_stuck p w : (Fs.os_unlink p w).1 ≠ Stuck.
Proof. unfold Fs.os_unlink. repeat case_match; done. Qed.

(** Moving a regular file to a free path returns or raises; it never leaves
    the modelled fragment. *)
Lemma move_file_not_stuck src dst mtime w :
  tree w !! src = Some (File mtime) ->
  tree w !! dst = None ->
  (Shutil.move src dst w).1 ≠ Stuck.
Proof.
  intros Hsrc Hdst. unfold Shutil.move.
  apply bind_not_stuck; [done|]. intros d w1. unfold Fs.is_dir, gets.
  rewrite Hdst. intros [= <- <-]. cbn [andb].
  apply bind_not_stuck; [done|]. intros real_dst w1 [= <- <-].
  destruct (os_rename_file src dst mtime w Hsrc) as [Hns Hsame].
  apply try_except_not_stuck; [done|]. intros e w1 ->%Hsame.
  apply bind_not_stuck; [done|]. intros sd w1. unfold Fs.is_dir, gets.
  rewrite Hsrc. intros [= <- <-].
  apply bind_not_stuck; [apply copy2_not_stuck|]. intros _ w1 _.
  apply os_unlink_not_stuck.
Qed.

(** *** The steps of [relocate] *)

Lemma relocate_eq path config ext_map :
  relocate path config ext_map =
    (ensure_dir (dest_dir_of path config ext_map) ;;;
     destination <-
       _resolve_destination (dest_dir_of path config ext_map) (name path) ;;
     deliver path config (dest_dir_of path config ext_map) destination).
Proof. reflexivity. Qed.

(** Ensuring the directory adds directories at most; it does nothing when
    the directory exists, and what it raises is what [mkdir] raised. *)
Lemma ensure_dir_spec dest_dir w r w1 :
  ensure_dir dest_dir w = (r, w1) ->
  r ≠ Stuck /\ grows w w1 /\
  (is_Some (tree w !! dest_dir) -> r = Return tt /\ w1 = w) /\
  (forall e, r = Raise e ->
     tree w !! dest_dir = None /\ Fs.mkdir dest_dir true true w = (Raise e, w1)).
Proof.
  unfold ensure_dir, bind, Fs.exists_, gets, ret.
  case_bool_decide as Hex; cbn [negb].
  - intros [= <- <-]. split_and!; [done | apply grows_refl | done | done].
  - intros Hmk. destruct (mkdir_grows _ _ _ _ _ _ Hmk) as [Hns Hg].
    split_and!; [done | done | done |]. intros e ->.
    split; [by apply eq_None_not_Some | done].
Qed.

Lemma deliver_same path config dest_dir w :
  deliver path config dest_dir path w = (Return None, w).
Proof. unfold deliver. by rewrite bool_decide_eq_true_2. Qed.

(** A dry run reports and returns the destination; the tree stays. *)
Lemma deliver_dry_run path config dest_dir destination w :
  dry_run config = true -> destination ≠ path ->
  exists w', deliver path config dest_dir destination w =
               (Return (Some destination), w') /\
             tree w' = tree w /\ clock w' = clock w.
Proof.
  intros Hdry Hne. unfold deliver.
  rewrite (bool_decide_eq_false_2 _ Hne), Hdry. by eexists.
Qed.

(** The move of a regular file to a free path is absorbed: whatever it
    raises, [deliver] returns, the destination or nothing. *)
Lemma deliver_move_returns path config dest_dir destination mtime w :
  dry_run config = false ->
  tree w !! path = Some (File mtime) ->
  tree w !! destination = None ->
  exists w', deliver path config dest_dir destination w = (Return (Some destination), w')
             \/ deliver path config dest_dir destination w = (Return None, w').
Proof.
  intros Hdry Hpath Hfree.
  assert (destination ≠ path) as Hne by (intros ->; congruence).
  unfold deliver. rewrite (bool_decide_eq_false_2 _ Hne), Hdry.
  pose proof (move_file_not_stuck path destination mtime w Hpath Hfree) as Hns.
  unfold try_except, bind.
  destruct (Shutil.move path destination w) as [[[]|e|] w1]; [| |done];
    cbn; eauto.
Qed.

(** *** The runs of [organize_file] *)

(** Every run is of one of three kinds: the file is skipped; ensuring the
    destination directory raises; or the directory is there, the resolver
    returns a free destination other than the file itself, and the run ends
    as [deliver] does. *)
Lemma organize_file_cases path config ext_map w :
  (_should_skip path config w = (Return true, w) /\
   organize_file path config ext_map w = (Return None, w))
  \/
  (exists mtime r1 w1,
     _should_skip path config w = (Return false, w) /\
     tree w !! path = Some (File mtime) /\
     ensure_dir (dest_dir_of path config ext_map) w = (r1, w1) /\
     grows w w1 /\
     ((exists e, r1 = Raise e /\
                 organize_file path config ext_map w = (Raise e, w1))
      \/
      (r1 = Return tt /\
       exists destination,
         _resolve_destination (dest_dir_of path config ext_map) (name path) w1 =
           (Return destination, w1) /\
         tree w1 !! destination = None /\
         destination ≠ path /\
         organize_file path config ext_map w =
           deliver path config (dest_dir_of path config ext_map) destination w1))).
Proof.
  destruct (should_skip_reads path config w) as [[|] Hskip].
  { left. split; [done | by apply organize_file_skipped]. }
  right. destruct (should_skip_false_file _ _ _ _ Hskip) as [mtime Hfile].
  rewrite (organize_file_eligible _ _ _ _ Hskip), relocate_eq.
  destruct (ensure_dir (dest_dir_of path config ext_map) w) as [r1 w1] eqn:Hens.
  destruct (ensure_dir_spec _ _ _ _ Hens) as (Hns & Hg & _ & _).
  exists mtime, r1, w1. split_and!; [done..|].
  unfold bind at 1. rewrite Hens.
  destruct r1 as [[]|e|]; [right | left; by exists e | done].
  split; [done|].
  destruct (resolve_returns (dest_dir_of path config ext_map) (name path) w1)
    as (destination & Hres & Hfree).
  exists destination. split_and!; [done | done | |].
  - intros ->. destruct Hg as (_ & _ & Hsub & _).
    pose proof (lookup_weaken _ _ _ _ Hfile Hsub). congruence.
  - unfold bind at 1. rewrite Hens. cbv beta. unfold bind. by rewrite Hres.
Qed.

Lemma organize_file_not_stuck path config ext_map w :
  (organize_file path config ext_map w).1 ≠ Stuck.
Proof.
  destruct (organize_file_cases path config ext_map w)
    as [[_ ->] | (mtime & r1 & w1 & _ & Hfile & _ & Hg &
                  [(e & _ & ->) | (_ & d & _ & Hfree & Hne & ->)])]; [done..|].
  destruct Hg as (_ & _ & Hsub & _).
  pose proof (lookup_weaken _ _ _ _ Hfile Hsub) as Hfile1.
  destruct (dry_run config) eqn:Hdry.
  - by destruct (deliver_dry_run path config (dest_dir_of path config ext_map)
                   d w1 Hdry Hne) as (w' & -> & _).
  - by destruct (deliver_move_returns path config (dest_dir_of path config ext_map)
                   d mtime w1 Hdry Hfile1 Hfree) as [w' [-> | ->]].
Qed.

(** On the modelled tree, where the existence checks always answer, the
    only exception that leaves [organize_file] is one that [mkdir] raised
    while the missing destination directory was being created; every
    failure of the move itself is absorbed. *)
Lemma organize_file_raises_from_mkdir path config ext_map w e w' :
  organize_file path config ext_map w = (Raise e, w') ->
  tree w !! dest_dir_of path config ext_map = None /\
  Fs.mkdir (dest_dir_of path config ext_map) true true w = (Raise e, w').
Proof.
  intros Hrun.
  destruct (organize_file_cases path config ext_map w)
    as [[_ Heq] | (mtime & r1 & w1 & _ & Hfile & Hens & Hg &
                   [(e1 & -> & Heq) | (_ & d & _ & Hfree & Hne & Heq)])].
  - congruence.
  - rewrite Heq in Hrun. injection Hrun as -> ->.
    by apply (ensure_dir_spec _ _ _ _ Hens).
  - rewrite Heq in Hrun. destruct Hg as (_ & _ & Hsub & _).
    pose proof (lookup_weaken _ _ _ _ Hfile Hsub) as Hfile1.
    destruct (dry_run config) eqn:Hdry.
    + destruct (deliver_dry_run path config (dest_dir_of path config ext_map)
                  d w1 Hdry Hne) as (w2 & Hd & _). congruence.
    + destruct (deliver_move_returns path config (dest_dir_of path config ext_map)
                  d mtime w1 Hdry Hfile1 Hfree) as [w2 [Hd | Hd]]; congruence.
Qed.

(** When the destination directory exists, [organize_file] returns. *)
Lemma organize_file_returns_when_dir_exists path config ext_map w :
  is_Some (tree w !! dest_dir_of path config ext_map) ->
  exists result w', organize_file path config ext_map w = (Return result, w').
Proof.
  intros [n Hdir].
  destruct (organize_file path config ext_map w) as [[result|e|] w'] eqn:Hrun.
  - by eexists _, _.
  - apply organize_file_raises_from_mkdir in Hrun as [? _]. congruence.
  - pose proof (organize_file_not_stuck path config ext_map w) as Hns.
    by rewrite Hrun in Hns.
Qed.

(** *** Dry runs *)

(** A dry run keeps the clock and every regular file where it is; it may
    add directories, and adds none when the destination directory exists. *)
Lemma dry_run_keeps_files path config ext_map w r w' :
  dry_run config = true ->
  organize_file path config ext_map w = (r, w') ->
  clock w' = clock w /\ tree w ⊆ tree w' /\
  (forall p mtime,
     tree w' !! p = Some (File mtime) <-> tree w !! p = Some (File mtime)) /\
  (is_Some (tree w !! dest_dir_of path config ext_map) -> tree w' = tree w).
Proof.
  intros Hdry Hrun.
  assert (forall w1, grows w w1 -> tree w' = tree w1 -> clock w' = clock w1 ->
            (is_Some (tree w !! dest_dir_of path config ext_map) -> w1 = w) ->
            clock w' = clock w /\ tree w ⊆ tree w' /\
            (forall p mtime,
               tree w' !! p = Some (File mtime) <-> tree w !! p = Some (File mtime)) /\
            (is_Some (tree w !! dest_dir_of path config ext_map) -> tree w' = tree w))
    as Hframe.
  { intros w1 (Hc & _ & Hsub & Hfiles) Ht Hc' Hsame. rewrite Ht.
    split_and!; [congruence | done | | by intros ->%Hsame].
    intros p mtime. split; [apply Hfiles | intros Hp; by eapply lookup_weaken]. }
  destruct (organize_file_cases path config ext_map w)
    as [[_ Heq] | (mtime & r1 & w1 & _ & Hfile & Hens & Hg &
                   [(e1 & -> & Heq) | (-> & d & _ & Hfree & Hne & Heq)])];
    rewrite Heq in Hrun.
  - injection Hrun as <- <-. apply (Hframe w); [apply grows_refl | done..].
  - injection Hrun as <- <-. apply (Hframe w1); [done..|].
    intros Hdir. by apply (ensure_dir_spec _ _ _ _ Hens) in Hdir as [? ?].
  - destruct (deliver_dry_run path config (dest_dir_of path config ext_map)
                d w1 Hdry Hne) as (w2 & Hd & Ht & Hc).
    rewrite Hd in Hrun. injection Hrun as <- <-.
    apply (Hframe w1); [done..|].
    intros Hdir. by apply (ensure_dir_spec _ _ _ _ Hens) in Hdir as [_ ?].
Qed.

(** Whatever destination a real run returns, the dry run returns too. *)
Lemma dry_run_same_destination path config ext_map w destination w' :
  organize_file path (set_dry_run false config) ext_map w =
    (Return (Some destination), w') ->
  exists w'', organize_file path (set_dry_run true config) ext_map w =
                (Return (Some destination), w'').
Proof.
  intros Hrun.
  destruct (organize_file_cases path (set_dry_run false config) ext_map w)
    as [[_ Heq] | (mtime & r1 & w1 & Hskip & Hfile & Hens & Hg &
                   [(e1 & -> & Heq) | (-> & d & Hres & Hfree & Hne & Heq)])];
    rewrite Heq in Hrun; [done.. |].
  destruct Hg as (_ & _ & Hsub & _).
  pose proof (lookup_weaken _ _ _ _ Hfile Hsub) as Hfile1.
  destruct (deliver_move_returns path (set_dry_run false config)
              (dest_dir_of path (set_dry_run false config) ext_map)
              d mtime w1 eq_refl Hfile1 Hfree) as [w2 [Hd | Hd]];
    rewrite Hd in Hrun; [|done]. injection Hrun as -> ->.
  change (_should_skip path (set_dry_run false config) w)
    with (_should_skip path (set_dry_run true config) w) in Hskip.
  rewrite (organize_file_eligible _ _ _ _ Hskip), relocate_eq.
  change (dest_dir_of path (set_dry_run true config) ext_map)
    with (dest_dir_of path (set_dry_run false config) ext_map).
  unfold bind at 1. rewrite Hens. cbv beta. unfold bind. rewrite Hres.
  destruct (deliver_dry_run path (set_dry_run true config)
              (dest_dir_of path (set_dry_run false config) ext_map)
              destination w1 eq_refl Hne) as (w3 & Hd3 & _).
  by exists w3.
Qed.

End mover.

(** .secret.pdf, old enough and with the policy off, is filed under
    Documents. *)
Example hidden_file_relocated :
  (relocate (home_downloads </> ".secret.pdf") (default_config false false)
     default_index (downloads_world true [(".secret.pdf", 10)])).1 =
  Return (Some (home_downloads </> "Documents" </> ".secret.pdf")).
Proof. vm_compute. reflexivity. Qed.

(** C3. A dry run is not free of effects: [organize_file] creates the
    missing destination directory before it looks at the dry-run flag. With
    report.pdf in a Downloads folder that has no Documents directory, the
    dry run returns the intended destination and leaves a new Documents
    directory behind. *)
Theorem dry_run_creates_directory :
  let w := downloads_world true [("report.pdf", 10)] in
  let run := organize_file (home_downloads </> "report.pdf")
               (default_config true true) default_index w in
  run.1 = Return (Some (home_downloads </> "Documents" </> "report.pdf")) /\
  tree w !! (home_downloads </> "Documents") = None /\
  tree run.2 !! (home_downloads </> "Documents") = Some (Dir true) /\
  console run.2 = [DryRunLine "report.pdf" "Documents"].
Proof. vm_compute. split_and!; reflexivity. Qed.

(** C4. An exception does leave [organize_file]: the creation of the
    destination directory stands outside the [try]. With report.pdf in a
    Downloads folder that is not writable, [mkdir] raises a permission
    error and [organize_file] raises it to its caller. *)
Theorem organize_file_raises_permission_error :
  organize_file (home_downloads </> "report.pdf") (default_config true false)
    default_index (downloads_world false [("report.pdf", 10)]) =
  (Raise PermissionError, downloads_world false [("report.pdf", 10)]).
Proof. vm_compute. reflexivity. Qed.

(** A failing move, by contrast, is absorbed: with the Documents directory
    in place but not writable, the run prints the failure and returns
    nothing. *)
Example organize_file_absorbs_move_failure :
  let w := {| tree := <[home_downloads </> "Documents" := Dir false]>
                        (tree (downloads_world true [("report.pdf", 10)]));
              clock := 100; console := [] |} in
  let run := organize_file (home_downloads </> "report.pdf")
               (default_config true false) default_index w in
  run.1 = Return None /\
  tree run.2 !! (home_downloads </> "report.pdf") = Some (File 10) /\
  tree run.2 !! (home_downloads </> "Documents" </> "report.pdf") = None /\
  console run.2 = [FailedLine "report.pdf" PermissionError].
Proof. vm_compute. split_and!; reflexivity. Qed.

(** Out of a Downloads folder that is not writable, into a Documents
    directory that is: the rename fails, the fallback copies the file and
    cannot remove the source; the failure is absorbed and the copy stays. *)
Example organize_file_absorbed_failure_leaves_copy :
  let w := {| tree := <[home_downloads </> "Documents" := Dir true]>
                        (tree (downloads_world false [("report.pdf", 10)]));
              clock := 100; console := [] |} in
  let run := organize_file (home_downloads </> "report.pdf")
               (default_config true false) default_index w in
  run.1 = Return None /\
  tree run.2 !! (home_downloads </> "report.pdf") = Some (File 10) /\
  tree run.2 !! (home_downloads </> "Documents" </> "report.pdf") = Some (File 10) /\
  console run.2 = [FailedLine "report.pdf" PermissionError].
Proof. vm_compute. split_and!; reflexivity. Qed.

(** A regular file in the place of the destination directory: nothing
    exists below it, and the move fails and is absorbed. *)
Example organize_file_destination_is_a_file :
  let w := {| tree := <[home_downloads </> "Documents" := File 1]>
                        (tree (downloads_world true [("report.pdf", 10)]));
              clock := 100; console := [] |} in
  let run := organize_file (home_downloads </> "report.pdf")
               (default_config true false) default_index w in
  run.1 = Return None /\
  tree run.2 !! (home_downloads </> "report.pdf") = Some (File 10) /\
  console run.2 = [FailedLine "report.pdf" NotADirectoryError].
Proof. vm_compute. split_and!; reflexivity. Qed.

(** The files of the end-to-end scenario, each under its category. *)
Example scenario_folders :
  map (fun f => _decide_folder (home_downloads </> f) default_index "Other")
    ["report.pdf"; "photo.JPG"; "archive.tar.gz"; "script.py"; "mystery.xyz"] =
  ["Documents"; "Images"; "Archives"; "Code"; "Other"].
Proof. vm_compute. reflexivity. Qed.

Example photo_collisions :
  let w0 := downloads_world true [("photo.jpg", 10)] in
  let images := home_downloads </> "Images" in
  let w1 := set_tree (<[images </> "photo.jpg" := File 1]>
                        (<[images := Dir true]> (tree w0))) w0 in
  let w2 := set_tree (<[images </> "photo-1.jpg" := File 2]> (tree w1)) w1 in
  (_resolve_destination images "photo.jpg" w0).1 = Return (images </> "photo.jpg") /\
  (_resolve_destination images "photo.jpg" w1).1 = Return (images </> "photo-1.jpg") /\
  (_resolve_destination images "photo.jpg" w2).1 = Return (images </> "photo-2.jpg").
Proof. vm_compute. split_and!; reflexivity. Qed.

(** ** Well-formed trees *)

Section well_formed.

Implicit Types (t : gmap Path node) (p : Path) (w : World).

Lemma parent_ne p : p ≠ [] -> parent p ≠ p.
Proof.
  intros Hne Heq. pose proof (List.app_removelast_last "" Hne) as Hlast.
  unfold parent in Heq. rewrite Heq in Hlast.
  apply (f_equal length) in Hlast. rewrite List.length_app in Hlast.
  simpl in Hlast. lia.
Qed.

Lemma is_dir_at_insert_ne t p q n :
  p ≠ q -> is_dir_at (<[p := n]> t) q = is_dir_at t q.
Proof. intros Hne. unfold is_dir_at. by rewrite lookup_insert_ne. Qed.

(** A new entry in a directory keeps the tree well formed, provided it
    does not replace a directory by a file. *)
Lemma wf_insert t p n :
  wf_tree t ->
  p = [] \/ is_dir_at t (parent p) = true ->
  (is_dir_at t p = true -> exists writable, n = Dir writable) ->
  wf_tree (<[p := n]> t).
Proof.
  intros Hwf Hparent Hkeep q m Hq.
  assert (forall q', is_dir_at t q' = true -> is_dir_at (<[p := n]> t) q' = true)
    as Hdirs.
  { intros q' Hq'. destruct (decide (p = q')) as [<-|Hne].
    - destruct (Hkeep Hq') as [writable ->]. unfold is_dir_at.
      by rewrite lookup_insert_eq.
    - by rewrite is_dir_at_insert_ne. }
  destruct (decide (p = q)) as [<-|Hne].
  - destruct Hparent as [?|Hparent]; [by left | right; by apply Hdirs].
  - rewrite lookup_insert_ne in Hq by done.
    destruct (Hwf q m Hq) as [?|Hdir]; [by left | right; by apply Hdirs].
Qed.

(** Taking a regular file away keeps the tree well formed. *)
Lemma wf_delete_file t p mtime :
  wf_tree t -> t !! p = Some (File mtime) -> wf_tree (delete p t).
Proof.
  intros Hwf Hp q m Hq.
  apply lookup_delete_Some in Hq as [Hne Hq].
  destruct (Hwf q m Hq) as [?|Hdir]; [by left | right].
  unfold is_dir_at in *. rewrite lookup_delete_ne; [done|].
  intros ->. by rewrite Hp in Hdir.
Qed.

Lemma is_dir_at_delete_file t p q mtime :
  t !! p = Some (File mtime) -> is_dir_at (delete p t) q = is_dir_at t q.
Proof.
  intros Hp. unfold is_dir_at. destruct (decide (p = q)) as [<-|Hne].
  - by rewrite lookup_delete_eq, Hp.
  - by rewrite lookup_delete_ne.
Qed.

Lemma preserves_ret {A} (a : A) : preserves_wf (ret a).
Proof. by intros w r w' [= <- <-]. Qed.

Lemma preserves_raise {A} e : preserves_wf (@raise A e).
Proof. by intros w r w' [= <- <-]. Qed.

Lemma preserves_stuck {A} : preserves_wf (@stuck A).
Proof. by intros w r w' [= <- <-]. Qed.

Lemma preserves_gets {A} (f : World -> A) : preserves_wf (gets f).
Proof. by intros w r w' [= <- <-]. Qed.

Lemma preserves_print l : preserves_wf (Fs.print l).
Proof. by intros w r w' [= <- <-]. Qed.

Lemma preserves_bind {A B} (m : M A) (k : A -> M B) :
  preserves_wf m -> (forall a, preserves_wf (k a)) -> preserves_wf (bind m k).
Proof.
  intros Hm Hk w r w' Hrun Hwf. unfold bind in Hrun.
  destruct (m w) as [[a|e|] w1] eqn:Hmw.
  - eapply Hk; [done | by eapply Hm].
  - injection Hrun as <- <-. by eapply Hm.
  - injection Hrun as <- <-. by eapply Hm.
Qed.

Lemma preserves_try_except {A} (m : M A) handles handler :
  preserves_wf m -> (forall e, preserves_wf (handler e)) ->
  preserves_wf (try_except m handles handler).
Proof.
  intros Hm Hh w r w' Hrun Hwf. unfold try_except in Hrun.
  destruct (m w) as [[a|e|] w1] eqn:Hmw.
  - injection Hrun as <- <-. by eapply Hm.
  - destruct (handles e).
    + eapply Hh; [done | by eapply Hm].
    + injection Hrun as <- <-. by eapply Hm.
  - injection Hrun as <- <-. by eapply Hm.
Qed.

Lemma preserves_if {A} (b : bool) (m1 m2 : M A) :
  preserves_wf m1 -> preserves_wf m2 -> preserves_wf (if b then m1 else m2).
Proof. by destruct b. Qed.

Lemma preserves_reads {A} (m : M A) :
  (forall w, exists r, m w = (r, w)) -> preserves_wf m.
Proof.
  intros Hm w r w' Hrun Hwf. destruct (Hm w) as [r0 Hr0].
  rewrite Hr0 in Hrun. by injection Hrun as <- <-.
Qed.

Lemma preserves_os_mkdir p : preserves_wf (Fs.os_mkdir p).
Proof.
  intros w r w'. unfold Fs.os_mkdir.
  destruct (tree w !! parent p) as [[mtime|writable]|] eqn:Hparent;
    [| case_bool_decide as Hp; [|destruct writable] |];
    intros [= <- <-] Hwf; try done.
  cbn [tree set_tree]. apply wf_insert; [done | | by eexists].
  right. unfold is_dir_at. by rewrite Hparent.
Qed.

Lemma preserves_mkdir_handler p exist_ok e :
  preserves_wf
    (if is_FileNotFoundError e then raise e
     else d <- Fs.is_dir p ;; if negb exist_ok || negb d then raise e else ret tt).
Proof.
  apply preserves_if; [apply preserves_raise|].
  apply preserves_bind; [apply preserves_gets|]. intros d.
  apply preserves_if; [apply preserves_raise | apply preserves_ret].
Qed.

Lemma preserves_mkdir_here p exist_ok : preserves_wf (Fs.mkdir_here p exist_ok).
Proof.
  apply preserves_try_except; [apply preserves_os_mkdir|].
  intros e. apply preserves_mkdir_handler.
Qed.

Lemma preserves_mkdir_rev rp parents exist_ok :
  preserves_wf (Fs.mkdir_rev rp parents exist_ok).
Proof.
  revert parents exist_ok. induction rp as [|c rp IH]; intros parents exist_ok;
    cbn [Fs.mkdir_rev];
    (apply preserves_try_except; [apply preserves_os_mkdir|]); intros e.
  - apply (preserves_mkdir_handler (rev []) exist_ok e).
  - apply preserves_if.
    + apply preserves_if; [apply preserves_raise|].
      apply preserves_bind; [apply IH | intros _; apply preserves_mkdir_here].
    + apply preserves_bind; [apply preserves_gets|]. intros d.
      apply preserves_if; [apply preserves_raise | apply preserves_ret].
Qed.

Lemma preserves_os_rename src dst : preserves_wf (Fs.os_rename src dst).
Proof.
  intros w r w'. unfold Fs.os_rename.
  destruct (tree w !! parent src) as [[?|wsrc]|] eqn:Hps,
           (tree w !! parent dst) as [[?|wdst]|] eqn:Hpd;
    try (by intros [= <- <-]).
  destruct (tree w !! src) as [[mtime|?]|] eqn:Hsrc; try (by intros [= <- <-]).
  case_bool_decide; [by intros [= <- <-]|].
  destruct (negb (wsrc && wdst)); [by intros [= <- <-]|].
  assert (wf_tree (tree w) ->
          is_dir_at (tree w) dst = false ->
          wf_tree (<[dst := File mtime]> (delete src (tree w)))) as Hmove.
  { intros Hwf Hdst. apply wf_insert.
    - by eapply wf_delete_file.
    - right. rewrite (is_dir_at_delete_file _ _ _ _ Hsrc).
      unfold is_dir_at. by rewrite Hpd.
    - rewrite (is_dir_at_delete_file _ _ _ _ Hsrc). congruence. }
  unfold is_dir_at in Hmove.
  destruct (tree w !! dst) as [[?|?]|]; intros [= <- <-] Hwf; auto.
Qed.

Lemma preserves_os_unlink p : preserves_wf (Fs.os_unlink p).
Proof.
  intros w r w'. unfold Fs.os_unlink.
  destruct (tree w !! parent p) as [[?|writable]|]; try (by intros [= <- <-]).
  destruct (tree w !! p) as [[mtime|?]|] eqn:Hp; try (by intros [= <- <-]).
  destruct writable; intros [= <- <-] Hwf; [|done].
  by eapply wf_delete_file.
Qed.

Lemma preserves_copyfile_stat src dst : preserves_wf (Shutil.copyfile_stat src dst).
Proof.
  intros w r w'. unfold Shutil.copyfile_stat.
  destruct (tree w !! src) as [[mtime|?]|]; try (by intros [= <- <-]).
  case_bool_decide; [by intros [= <- <-]|].
  destruct (tree w !! parent dst) as [[?|writable]|] eqn:Hpd;
    try (by intros [= <- <-]).
  assert (wf_tree (tree w) -> is_dir_at (tree w) dst = false ->
          wf_tree (<[dst := File mtime]> (tree w))) as Hcopy.
  { intros Hwf Hdst. apply wf_insert; [done | | congruence].
    right. unfold is_dir_at. by rewrite Hpd. }
  unfold is_dir_at in Hcopy.
  destruct (tree w !! dst) as [[?|?]|]; [| |destruct writable];
    intros [= <- <-] Hwf; auto.
Qed.

Lemma preserves_move src dst : preserves_wf (Shutil.move src dst).
Proof.
  unfold Shutil.move.
  apply preserves_bind; [apply preserves_gets|]. intros d.
  apply preserves_if; [apply preserves_os_rename|].
  apply preserves_bind.
  { apply preserves_if; [|apply preserves_ret].
    apply preserves_bind; [apply preserves_gets|]. intros e.
    apply preserves_if; [apply preserves_raise | apply preserves_ret]. }
  intros real_dst. apply preserves_try_except; [apply preserves_os_rename|].
  intros _. apply preserves_bind; [apply preserves_gets|]. intros sd.
  apply preserves_if; [apply preserves_stuck|].
  apply preserves_bind; [|intros _; apply preserves_os_unlink].
  unfold Shutil.copy2. apply preserves_bind; [apply preserves_gets|].
  intros d2. apply preserves_copyfile_stat.
Qed.

(** [organize_file] takes a well-formed tree to a well-formed tree. *)
Lemma organize_file_preserves_wf path config ext_map :
  preserves_wf (organize_file path config ext_map).
Proof.
  unfold organize_file.
  apply preserves_bind.
  { apply preserves_reads. intros w.
    destruct (should_skip_reads path config w) as [skip ->]. by eexists. }
  intros skip. apply preserves_if; [apply preserves_ret|].
  apply preserves_bind; [apply preserves_gets|]. intros e.
  apply preserves_bind.
  { apply preserves_if; [apply preserves_mkdir_rev | apply preserves_ret]. }
  intros _. apply preserves_bind.
  { apply preserves_reads. intros w.
    destruct (resolve_returns (downloads_dir config </>
                _decide_folder path ext_map (other_folder config)) (name path) w)
      as (destination & -> & _). by eexists. }
  intros destination. apply preserves_if; [apply preserves_ret|].
  apply preserves_if.
  { apply preserves_bind; [apply preserves_print | intros _; apply preserves_ret]. }
  apply preserves_try_except.
  - apply preserves_bind; [apply preserves_move|]. intros _.
    apply preserves_bind; [apply preserves_print | intros _; apply preserves_ret].
  - intros exc.
    apply preserves_bind; [apply preserves_print | intros _; apply preserves_ret].
Qed.

(** The fixtures are well-formed trees. *)
Example fixtures_well_formed :
  wf_tree (tree (downloads_world true [("report.pdf", 10)])) /\
  wf_tree (tree (downloads_world false [("report.pdf", 10)])) /\
  wf_tree (tree (downloads_world true [(".secret.pdf", 10)])) /\
  wf_tree (tree archive_taken) /\
  wf_tree (tree (collisions 3)).
Proof.
  unfold wf_tree. split_and!; refine (bool_decide_unpack _ _); vm_compute; exact I.
Qed.

End well_formed.

(** ** Scan driver *)

(** The end-to-end scenario: one scan of a Downloads folder with five
    settled files puts each of them under its category. *)
Example scan_scenario :
  let w := downloads_world true
             [("report.pdf", 10); ("photo.JPG", 10); ("archive.tar.gz", 10);
              ("script.py", 10); ("mystery.xyz", 10)] in
  let run := scan_existing (default_config true false) default_index w in
  run.1 = Return tt /\
  map (fun p => tree run.2 !! p)
    [ home_downloads </> "Documents" </> "report.pdf";
      home_downloads </> "Images" </> "photo.JPG";
      home_downloads </> "Archives" </> "archive.tar.gz";
      home_downloads </> "Code" </> "script.py";
      home_downloads </> "Other" </> "mystery.xyz" ] =
    [Some (File 10); Some (File 10); Some (File 10); Some (File 10); Some (File 10)] /\
  map (fun f => tree run.2 !! (home_downloads </> f))
    ["report.pdf"; "photo.JPG"; "archive.tar.gz"; "script.py"; "mystery.xyz"] =
    [None; None; None; None; None].
Proof. vm_compute. split_and!; reflexivity. Qed.

(** In a Downloads folder that is not writable the exception of
    [organize_file] ends the scan. *)
Example scan_raises :
  (scan_existing (default_config true false) default_index
     (downloads_world false [("report.pdf", 10)])).1 = Raise PermissionError.
Proof. vm_compute. reflexivity. Qed.

(** * Further properties *)

(** ** What a move does to the tree *)

Section move_effects.

Implicit Types (w : World) (src dst path : Path) (config : Config)
  (ext_map : gmap string string).

Lemma os_rename_effect src dst mtime w :
  tree w !! src = Some (File mtime) ->
  tree w !! dst = None ->
  Fs.os_rename src dst w =
    (Return tt, set_tree (<[dst := File mtime]> (delete src (tree w))) w)
  \/ exists e, Fs.os_rename src dst w = (Raise e, w).
Proof.
  intros Hsrc Hdst. assert (src ≠ dst) as Hne by (intros ->; congruence).
  unfold Fs.os_rename. rewrite Hsrc, Hdst, (bool_decide_eq_false_2 _ Hne).
  repeat case_match; eauto.
Qed.

Lemma copyfile_stat_effect src dst mtime w :
  tree w !! src = Some (File mtime) ->
  tree w !! dst = None ->
  Shutil.copyfile_stat src dst w =
    (Return tt, set_tree (<[dst := File mtime]> (tree w)) w)
  \/ exists e, Shutil.copyfile_stat src dst w = (Raise e, w).
Proof.
  intros Hsrc Hdst. assert (src ≠ dst) as Hne by (intros ->; congruence).
  unfold Shutil.copyfile_stat. rewrite Hsrc, Hdst, (bool_decide_eq_false_2 _ Hne).
  repeat case_match; eauto.
Qed.

Lemma os_unlink_effect p mtime w :
  tree w !! p = Some (File mtime) ->
  Fs.os_unlink p w = (Return tt, set_tree (delete p (tree w)) w)
  \/ exists e, Fs.os_unlink p w = (Raise e, w).
Proof.
  intros Hp. unfold Fs.os_unlink. rewrite Hp. repeat case_match; eauto.
Qed.

(** A move of a regular file to a free path ends in one of three trees: the
    file is at the destination and gone from the source; nothing changed;
    or (the copy was made and the source could not be removed) the file is
    at both places. It returns in the first case only. *)
Lemma move_effect src dst mtime w r w' :
  tree w !! src = Some (File mtime) ->
  tree w !! dst = None ->
  Shutil.move src dst w = (r, w') ->
  clock w' = clock w /\ console w' = console w /\
  ((r = Return tt /\ tree w' = <[dst := File mtime]> (delete src (tree w)))
   \/ (exists e, r = Raise e /\
          (tree w' = tree w \/ tree w' = <[dst := File mtime]> (tree w)))).
Proof.
  intros Hsrc Hdst. assert (src ≠ dst) as Hne by (intros ->; congruence).
  unfold Shutil.move, bind, Fs.is_dir, gets, ret, try_except.
  rewrite Hdst. cbn [andb].
  destruct (os_rename_effect src dst mtime w Hsrc Hdst) as [-> | [e ->]].
  { intros [= <- <-]. split_and!; [done | done | left; done]. }
  cbn [is_OSError]. rewrite Hsrc.
  unfold Shutil.copy2, bind, Fs.is_dir, gets. rewrite Hdst.
  destruct (copyfile_stat_effect src dst mtime w Hsrc Hdst) as [-> | [e2 ->]].
  2:{ intros [= <- <-]. split_and!; [done | done | right; eauto]. }
  set (w2 := set_tree (<[dst := File mtime]> (tree w)) w).
  assert (tree w2 !! src = Some (File mtime)) as Hsrc2.
  { unfold w2. cbn [tree set_tree]. by rewrite lookup_insert_ne. }
  destruct (os_unlink_effect src mtime w2 Hsrc2) as [-> | [e3 ->]];
    intros [= <- <-]; (split_and!; [done | done |]).
  - left. split; [done|]. unfold w2. cbn [tree set_tree].
    by rewrite delete_insert_ne.
  - right. exists e3. split; [done|]. by right.
Qed.

(** The destination the resolver returns lies directly in the destination
    directory. *)
Lemma resolve_child dest_dir filename w destination w' :
  _resolve_destination dest_dir filename w = (Return destination, w') ->
  parent destination = dest_dir.
Proof.
  intros Hres.
  assert (exists x, destination = dest_dir </> x) as [x ->].
  { destruct (tree w !! (dest_dir </> filename)) as [n|] eqn:Hn.
    - destruct (resolve_taken dest_dir filename w) as (i & _ & Hret & _); [eauto|].
      rewrite Hret in Hres. injection Hres as <- _. by eexists.
    - rewrite (resolve_free _ _ _ Hn) in Hres. injection Hres as <- _. by eexists. }
  apply removelast_last.
Qed.

Lemma deliver_move_effect path config dest_dir destination mtime w r w' :
  dry_run config = false ->
  tree w !! path = Some (File mtime) ->
  tree w !! destination = None ->
  deliver path config dest_dir destination w = (r, w') ->
  clock w' = clock w /\
  ((r = Return (Some destination) /\
    tree w' = <[destination := File mtime]> (delete path (tree w)) /\
    console w' = (console w ++ [MovedLine (name path) (name dest_dir)])%list)
   \/
   (r = Return None /\
    (tree w' = tree w \/ tree w' = <[destination := File mtime]> (tree w)) /\
    exists e, console w' = (console w ++ [FailedLine (name path) e])%list)).
Proof.
  intros Hdry Hpath Hfree.
  assert (destination ≠ path) as Hne by (intros ->; congruence).
  unfold deliver. rewrite (bool_decide_eq_false_2 _ Hne), Hdry.
  unfold try_except, bind.
  destruct (Shutil.move path destination w) as [r1 w1] eqn:Hmove.
  destruct (move_effect _ _ _ _ _ _ Hpath Hfree Hmove)
    as (Hc & Ho & [[-> Ht] | (e & -> & Ht)]); cbn; intros [= <- <-]; cbn.
  - split; [done|]. left. by rewrite Ho.
  - split; [done|]. right. split_and!; [done | done |]. exists e. by rewrite Ho.
Qed.

(** Every run of [organize_file], by its effect: the file is skipped and
    the world stays; or directories are added ([grows]) and then the run
    raises, reports a dry run, moves the file, or prints a failure. *)
Lemma organize_file_effect path config ext_map w r w' :
  organize_file path config ext_map w = (r, w') ->
  (r = Return None /\ w' = w)
  \/
  (exists mtime w1,
     tree w !! path = Some (File mtime) /\ grows w w1 /\
     ((exists e, r = Raise e /\ w' = w1)
      \/
      (exists destination,
         tree w1 !! destination = None /\ destination ≠ path /\
         parent destination = dest_dir_of path config ext_map /\
         clock w' = clock w1 /\
         ((dry_run config = true /\ r = Return (Some destination) /\
           tree w' = tree w1 /\
           console w' =
             (console w1 ++
              [DryRunLine (name path) (name (dest_dir_of path config ext_map))])%list)
          \/
          (dry_run config = false /\ r = Return (Some destination) /\
           tree w' = <[destination := File mtime]> (delete path (tree w1)) /\
           console w' =
             (console w1 ++
              [MovedLine (name path) (name (dest_dir_of path config ext_map))])%list)
          \/
          (dry_run config = false /\ r = Return None /\
           (tree w' = tree w1 \/ tree w' = <[destination := File mtime]> (tree w1)) /\
           exists e, console w' = (console w1 ++ [FailedLine (name path) e])%list))))).
Proof.
  intros Hrun.
  destruct (organize_file_cases path config ext_map w)
    as [[_ Heq] | (mtime & r1 & w1 & _ & Hfile & Hens & Hg &
                   [(e & -> & Heq) | (-> & d & Hres & Hfree & Hne & Heq)])];
    rewrite Heq in Hrun.
  - left. by injection Hrun as <- <-.
  - right. exists mtime, w1. split_and!; [done..|]. left. exists e.
    by injection Hrun as <- <-.
  - right. exists mtime, w1. split_and!; [done..|]. right. exists d.
    pose proof (resolve_child _ _ _ _ _ Hres) as Hparent.
    assert (tree w1 !! path = Some (File mtime)) as Hfile1.
    { destruct Hg as (_ & _ & Hsub & _). by eapply lookup_weaken. }
    destruct (dry_run config) eqn:Hdry.
    + unfold deliver in Hrun.
      rewrite (bool_decide_eq_false_2 _ Hne), Hdry in Hrun.
      injection Hrun as <- <-. split_and!; [done..|]. left. done.
    + destruct (deliver_move_effect _ _ _ _ _ _ _ _ Hdry Hfile1 Hfree Hrun)
        as (Hc & [(-> & Ht & Ho) | (-> & Ht & Ho)]);
        (split_and!; [done..|]); right; [left | right]; done.
Qed.

End move_effects.

(** ** Safety of [organize_file] *)

Section mover_safety.

Implicit Types (w : World) (path p : Path) (config : Config)
  (ext_map : gmap string string).

Lemma should_skip_not_file path config w :
  (forall mtime, tree w !! path ≠ Some (File mtime)) ->
  _should_skip path config w = (Return true, w).
Proof.
  intros Hnot. destruct (should_skip_reads path config w) as [[|] Hskip]; [done|].
  destruct (should_skip_false_file _ _ _ _ Hskip) as [mtime Hfile].
  by destruct (Hnot mtime).
Qed.

End mover_safety.

(** Every entry other than the source path survives a run. *)
Lemma organize_file_frame
    (path : Path) (config : Config) (ext_map : gmap string string) (w : World)
    (p : Path) (n : node) :
  p ≠ path ->
  tree w !! p = Some n ->
  tree (organize_file path config ext_map w).2 !! p = Some n.
Proof.
  intros Hp Hn.
  destruct (organize_file path config ext_map w) as [r w'] eqn:Hrun. cbn [snd].
  destruct (organize_file_effect _ _ _ _ _ _ Hrun)
    as [[_ ->] | (mtime & w1 & Hfile & (_ & _ & Hsub & _) &
                  [(e & _ & ->) | (d & Hfree & Hne & _ & _ & Hend)])]; [done| |].
  - by eapply lookup_weaken.
  - pose proof (lookup_weaken _ _ _ _ Hn Hsub) as Hn1.
    assert (d ≠ p) as Hdp by (intros ->; congruence).
    destruct Hend as [(_ & _ & -> & _) | [(_ & _ & -> & _) | (_ & _ & [-> | ->] & _)]];
      rewrite ?lookup_insert_ne, ?lookup_delete_ne by done; done.
Qed.

(** X1. [organize_file] leaves every entry of the tree other than the
    source path as it is, however the run ends: no other file or directory
    is removed, replaced or overwritten. *)
Theorem organize_file_keeps_other_entries
    (path : Path) (config : Config) (ext_map : gmap string string) (w : World)
    (p : Path) (n : node) :
  p ≠ path ->
  tree w !! p = Some n ->
  tree (organize_file path config ext_map w).2 !! p = Some n.
Proof. apply organize_file_frame. Qed.

(** notes.txt stays where it is while report.pdf is moved. *)
Lemma organize_file_keeps_other_entries_witness :
  tree (organize_file report_path (default_config true false) default_index
          two_files).2 !! (home_downloads </> "notes.txt") = Some (File 20).
Proof.
  apply organize_file_keeps_other_entries.
  - discriminate.
  - vm_compute. reflexivity.
Defined.



(** X3. When a real run (not a dry run) returns a destination, that path
    did not exist before the run and lies directly in the destination
    directory of the file's category; after the run it holds the file with
    its modification time, the source path is gone, and one "Moved" line
    was printed. *)
Theorem organize_file_moved
    (path : Path) (config : Config) (ext_map : gmap string string)
    (w w' : World) (destination : Path) :
  dry_run config = false ->
  organize_file path config ext_map w = (Return (Some destination), w') ->
  exists mtime,
    tree w !! path = Some (File mtime) /\
    tree w !! destination = None /\
    parent destination = dest_dir_of path config ext_map /\
    tree w' !! destination = Some (File mtime) /\
    tree w' !! path = None /\
    console w' =
      (console w ++
       [MovedLine (name path) (name (dest_dir_of path config ext_map))])%list.
Proof.
  intros Hdry Hrun.
  destruct (organize_file_effect _ _ _ _ _ _ Hrun)
    as [[[=] _] | (mtime & w1 & Hfile & (_ & Ho & Hsub & _) &
                   [(e & [=] & _) | (d & Hfree & Hne & Hparent & _ & Hend)])].
  exists mtime.
  destruct Hend as [(Hd & _) | [(_ & [= ->] & Ht & Hc) | (_ & [=] & _)]];
    [congruence|].
  split_and!; [done | | done | | |].
  - destruct (tree w !! d) as [n|] eqn:Hd; [|done].
    pose proof (lookup_weaken _ _ _ _ Hd Hsub). congruence.
  - by rewrite Ht, lookup_insert_eq.
  - by rewrite Ht, lookup_insert_ne, lookup_delete_eq.
  - by rewrite Hc, Ho.
Qed.

Lemma organize_file_moved_witness :
  exists mtime,
    tree two_files !! report_path = Some (File mtime) /\
    tree two_files !! (home_downloads </> "Documents" </> "report.pdf") = None /\
    parent (home_downloads </> "Documents" </> "report.pdf") =
      dest_dir_of report_path (default_config true false) default_index /\
    tree (organize_file report_path (default_config true false) default_index
            two_files).2 !! (home_downloads </> "Documents" </> "report.pdf")
      = Some (File mtime) /\
    tree (organize_file report_path (default_config true false) default_index
            two_files).2 !! report_path = None /\
    console (organize_file report_path (default_config true false) default_index
               two_files).2 =
      (console two_files ++
       [MovedLine (name report_path)
          (name (dest_dir_of report_path (default_config true false)
                   default_index))])%list.
Proof.
  apply (organize_file_moved report_path (default_config true false)
           default_index two_files).
  - reflexivity.
  - vm_compute. reflexivity.
Defined.

(** X4. After a real run has moved the file, a second run on the same
    source path does nothing: it returns nothing and leaves the world as it
    is. *)
Theorem organize_file_again_is_noop
    (path : Path) (config : Config) (ext_map : gmap string string)
    (w w' : World) (destination : Path) :
  dry_run config = false ->
  organize_file path config ext_map w = (Return (Some destination), w') ->
  organize_file path config ext_map w' = (Return None, w').
Proof.
  intros Hdry Hrun.
  destruct (organize_file_effect _ _ _ _ _ _ Hrun)
    as [[[=] _] | (mtime & w1 & Hfile & _ &
                   [(e & [=] & _) | (d & Hfree & Hne & _ & _ & Hend)])].
  destruct Hend as [(Hd & _) | [(_ & [= ->] & Ht & _) | (_ & [=] & _)]];
    [congruence|].
  apply organize_file_skipped, should_skip_not_file.
  intros m. by rewrite Ht, lookup_insert_ne, lookup_delete_eq.
Qed.

Lemma organize_file_again_is_noop_witness :
  organize_file report_path (default_config true false) default_index
    (organize_file report_path (default_config true false) default_index
       two_files).2 =
  (Return None,
   (organize_file report_path (default_config true false) default_index
      two_files).2).
Proof.
  apply (organize_file_again_is_noop report_path (default_config true false)
           default_index two_files _
           (home_downloads </> "Documents" </> "report.pdf")).
  - reflexivity.
  - vm_compute. reflexivity.
Defined.



(** X6. A dry run keeps the clock and every regular file where it is: the
    tree only grows, by directories, and stays the same when the destination
    directory exists. *)
Theorem dry_run_moves_nothing
    (path : Path) (config : Config) (ext_map : gmap string string) (w : World) :
  dry_run config = true ->
  clock (organize_file path config ext_map w).2 = clock w /\
  tree w ⊆ tree (organize_file path config ext_map w).2 /\
  (forall p mtime,
     tree (organize_file path config ext_map w).2 !! p = Some (File mtime) <->
     tree w !! p = Some (File mtime)) /\
  (is_Some (tree w !! dest_dir_of path config ext_map) ->
   tree (organize_file path config ext_map w).2 = tree w).
Proof.
  intros Hdry.
  destruct (organize_file path config ext_map w) as [r w'] eqn:Hrun.
  by eapply dry_run_keeps_files.
Qed.

Lemma dry_run_moves_nothing_witness :
  clock (organize_file report_path (default_config true true) default_index
           two_files).2 = clock two_files /\
  tree two_files ⊆
    tree (organize_file report_path (default_config true true) default_index
            two_files).2 /\
  (forall p mtime,
     tree (organize_file report_path (default_config true true) default_index
             two_files).2 !! p = Some (File mtime) <->
     tree two_files !! p = Some (File mtime)) /\
  (is_Some (tree two_files
              !! dest_dir_of report_path (default_config true true) default_index) ->
   tree (organize_file report_path (default_config true true) default_index
           two_files).2 = tree two_files).
Proof. apply dry_run_moves_nothing. reflexivity. Defined.

(** X7. The destination a real run returns is the destination the dry run
    returns in the same world. *)
Theorem dry_run_reports_real_destination
    (path : Path) (config : Config) (ext_map : gmap string string)
    (w w' : World) (destination : Path) :
  organize_file path (set_dry_run false config) ext_map w =
    (Return (Some destination), w') ->
  (organize_file path (set_dry_run true config) ext_map w).1 =
    Return (Some destination).
Proof.
  intros Hrun.
  destruct (dry_run_same_destination _ _ _ _ _ _ Hrun) as [w'' ->]. done.
Qed.

Lemma dry_run_reports_real_destination_witness :
  (organize_file report_path (set_dry_run true (default_config true false))
     default_index two_files).1 =
  Return (Some (home_downloads </> "Documents" </> "report.pdf")).
Proof.
  apply (dry_run_reports_real_destination report_path (default_config true false)
           default_index two_files
           (organize_file report_path (set_dry_run false (default_config true false))
              default_index two_files).2).
  vm_compute. reflexivity.
Defined.

(** X8. [organize_file] keeps the tree well formed: if every entry lies in
    a directory of the tree before the run, so it does after, however the
    run ends. *)
Theorem organize_file_keeps_well_formed
    (path : Path) (config : Config) (ext_map : gmap string string) (w : World) :
  wf_tree (tree w) ->
  wf_tree (tree (organize_file path config ext_map w).2).
Proof.
  intros Hwf.
  destruct (organize_file path config ext_map w) as [r w'] eqn:Hrun.
  by eapply organize_file_preserves_wf.
Qed.

Lemma organize_file_keeps_well_formed_witness :
  wf_tree (tree (organize_file report_path (default_config true false)
                   default_index two_files).2).
Proof.
  apply organize_file_keeps_well_formed.
  unfold wf_tree. refine (bool_decide_unpack _ _). vm_compute. exact I.
Defined.

(** ** More on the settling filter *)

(** X9. A path that is not a regular file of the tree (a directory, or a
    path that vanished) is skipped, not an error: [_should_skip] returns
    [True], and [organize_file] returns nothing and leaves the world as it
    is. *)
Theorem not_a_regular_file_is_skipped
    (path : Path) (config : Config) (ext_map : gmap string string) (w : World) :
  (forall mtime, tree w !! path ≠ Some (File mtime)) ->
  _should_skip path config w = (Return true, w) /\
  organize_file path config ext_map w = (Return None, w).
Proof.
  intros Hnot. pose proof (should_skip_not_file path config w Hnot) as Hskip.
  split; [done | by apply organize_file_skipped].
Qed.

(** The directory Downloads/ itself. *)
Lemma not_a_regular_file_is_skipped_witness :
  _should_skip home_downloads (default_config false false) two_files =
    (Return true, two_files) /\
  organize_file home_downloads (default_config false false) default_index two_files =
    (Return None, two_files).
Proof.
  apply not_a_regular_file_is_skipped.
  intros mtime. vm_compute. discriminate.
Defined.

(** X10. The platform metadata names and the transient extensions are
    skipped whatever the configuration, the age and the kind of the entry:
    [organize_file] returns nothing and leaves the world as it is. The
    extension is the last suffix of the name, compared in lower case. *)
Theorem transient_is_never_moved
    (path : Path) (config : Config) (ext_map : gmap string string) (w : World) :
  name path ∈ SKIP_NAMES \/
  Py.lower (PurePath.suffix (name path)) ∈ TRANSIENT_EXTENSIONS ->
  _should_skip path config w = (Return true, w) /\
  organize_file path config ext_map w = (Return None, w).
Proof.
  intros Hrule.
  assert (_should_skip path config w = (Return true, w)) as Hskip.
  { unfold _should_skip. case_bool_decide as Hname; [done|].
    destruct (ignore_hidden config && _); [done|].
    destruct Hrule as [?|Htransient]; [done|].
    by rewrite (bool_decide_eq_true_2 _ Htransient). }
  split; [done | by apply organize_file_skipped].
Qed.

(** A partial download in upper case, settled long ago, hidden-file policy
    off. *)
Lemma transient_is_never_moved_witness :
  _should_skip (home_downloads </> "movie.mkv.PART") (default_config false false)
    (downloads_world true [("movie.mkv.PART", 1)]) =
    (Return true, downloads_world true [("movie.mkv.PART", 1)]) /\
  organize_file (home_downloads </> "movie.mkv.PART") (default_config false false)
    default_index (downloads_world true [("movie.mkv.PART", 1)]) =
    (Return None, downloads_world true [("movie.mkv.PART", 1)]).
Proof.
  apply transient_is_never_moved. right.
  refine (bool_decide_unpack _ _). vm_compute. exact I.
Defined.

Section settling_time.

Implicit Types (w : World) (path : Path) (config : Config).

(** What a [False] of the filter means. *)
Lemma should_skip_false_inv path config w w' :
  _should_skip path config w = (Return false, w') ->
  (name path ∉ SKIP_NAMES) /\
  (ignore_hidden config && Py.startswith "." (name path)) = false /\
  (Py.lower (PurePath.suffix (name path)) ∉ TRANSIENT_EXTENSIONS) /\
  exists mtime, tree w !! path = Some (File mtime) /\
                min_age_seconds config <= clock w - mtime.
Proof.
  intros Hrun. pose proof Hrun as Hrun0. revert Hrun. unfold _should_skip.
  case_bool_decide as Hname; [done|].
  destruct (ignore_hidden config && _) eqn:Hhidden; [done|].
  case_bool_decide as Htransient; [done|]. intros _.
  destruct (should_skip_false_file _ _ _ _ Hrun0) as [mtime Hfile].
  split_and!; [done..|]. exists mtime. split; [done|].
  rewrite (should_skip_age path config w mtime) in Hrun0 by done.
  injection Hrun0 as Hage _. by apply Z.ltb_ge.
Qed.

End settling_time.

(** X11. Settling is stable: a file that the filter lets through stays
    eligible at every later time, as long as the tree is the same (the file
    is not modified). *)
Theorem eligible_stays_eligible
    (path : Path) (config : Config) (w : World) (t : Z) :
  _should_skip path config w = (Return false, w) ->
  clock w <= t ->
  _should_skip path config (at_time t w) = (Return false, at_time t w).
Proof.
  intros (Hname & Hhidden & Htransient & mtime & Hfile & Hage)%should_skip_false_inv Ht.
  rewrite (should_skip_age path config (at_time t w) mtime) by done.
  cbn [clock at_time]. by rewrite (proj2 (Z.ltb_ge _ _)) by lia.
Qed.

Lemma eligible_stays_eligible_witness :
  _should_skip report_path (default_config true false) (at_time 500 two_files) =
    (Return false, at_time 500 two_files).
Proof.
  apply eligible_stays_eligible.
  - vm_compute. reflexivity.
  - vm_compute. discriminate.
Defined.

(** ** More on normalisation and the index *)

Section normal_forms.

Implicit Types (s : string) (ms : list (string * list string)).

Lemma normalize_lower s : _normalize_extension (Py.lower s) = _normalize_extension s.
Proof. unfold _normalize_extension. by rewrite strip_lower, lower_idem. Qed.

Lemma normalize_strip s : _normalize_extension (Py.strip s) = _normalize_extension s.
Proof. unfold _normalize_extension. by rewrite strip_idem. Qed.

Lemma normalize_empty s : _normalize_extension s = "" <-> Py.strip s = "".
Proof.
  unfold _normalize_extension. split.
  - destruct (String.eqb _ "") eqn:He.
    + intros _. apply String.eqb_eq in He. by apply lower_empty.
    + destruct (negb _); [done|]. intros Hl. rewrite Hl in He. done.
  - by intros ->.
Qed.

Lemma build_lookup_is_Some ms folder exts ext :
  (folder, exts) ∈ ms -> ext ∈ exts ->
  is_Some (_build_extension_map ms !! _normalize_extension ext).
Proof.
  induction ms as [|[f es] ms IH] using rev_ind; [by intros ?%elem_of_nil|].
  intros Hin Hext. rewrite build_snoc, add_folder_lookup.
  case_bool_decide as Hk; [done|].
  apply elem_of_app in Hin as [Hin | Hin%list_elem_of_singleton]; [by apply IH|].
  injection Hin as <- <-. destruct Hk. by apply list_elem_of_fmap_2.
Qed.

End normal_forms.

(** X12. The normal form of an extension is either empty or a dot followed
    by text, and in both cases trimmed and lower-case; it is empty exactly
    when the extension is empty or all white space, so such an entry of the
    configuration is the wildcard key. *)
Theorem normalize_extension_shape (s : string) :
  (_normalize_extension s = "" \/
   Py.startswith "." (_normalize_extension s) = true) /\
  Py.strip (_normalize_extension s) = _normalize_extension s /\
  Py.lower (_normalize_extension s) = _normalize_extension s /\
  (_normalize_extension s = "" <-> Py.strip s = "").
Proof.
  destruct (normalize_clean s) as (Hl & Hr & Hw).
  split_and!; [apply normalize_dotted | | done | apply normalize_empty].
  unfold Py.strip. by rewrite Hr, Hl.
Qed.

(** X13. Normalisation does not see the case of an extension nor the
    white space around it. *)
Theorem normalize_extension_spelling (s : string) :
  _normalize_extension (Py.lower s) = _normalize_extension s /\
  _normalize_extension (Py.strip s) = _normalize_extension s.
Proof. split; [apply normalize_lower | apply normalize_strip]. Qed.

(** X14. The keys of the extension index are exactly the normal forms of
    the configured extensions, and the category under a key is one that
    lists an extension with this normal form. *)
Theorem build_extension_map_keys
    (ms : list (string * list string)) (k : string) :
  (is_Some (_build_extension_map ms !! k) <->
   exists folder exts ext,
     (folder, exts) ∈ ms /\ ext ∈ exts /\ k = _normalize_extension ext) /\
  (forall folder,
     _build_extension_map ms !! k = Some folder ->
     exists exts ext,
       (folder, exts) ∈ ms /\ ext ∈ exts /\ k = _normalize_extension ext).
Proof.
  split.
  - split.
    + intros [folder (exts & ext & ?)%build_lookup_Some]. by exists folder, exts, ext.
    + intros (folder & exts & ext & Hin & Hext & ->). by eapply build_lookup_is_Some.
  - intros folder. apply build_lookup_Some.
Qed.

(** The key ".jpg" of an index with two spellings of it, and its category. *)
Lemma build_extension_map_keys_witness :
  exists exts ext,
    ("Photos", exts) ∈ [("Images", ["jpg"; "png"]); ("Photos", [" .JPG"])] /\
    ext ∈ exts /\ ".jpg" = _normalize_extension ext.
Proof.
  apply (proj2 (build_extension_map_keys
                  [("Images", ["jpg"; "png"]); ("Photos", [" .JPG"])] ".jpg")).
  vm_compute. reflexivity.
Defined.

(** ** More on the classifier *)

Section classifier_more.

Implicit Types (m ext_map : gmap string string) (s : string) (l : list string).

Lemma first_match_Some m l folder :
  first_match m l = Some folder ->
  exists c, c ∈ l /\ m !! _normalize_extension c = Some folder.
Proof.
  induction l as [|c l IH]; [done|]. cbn [first_match].
  destruct (m !! _normalize_extension c) as [f|] eqn:Hc.
  - intros [= ->]. exists c. split; [apply elem_of_cons; by left | done].
  - intros (c' & Hin & Hc')%IH. exists c'. split; [apply elem_of_cons; by right | done].
Qed.

Lemma first_match_None m l :
  (forall c, c ∈ l -> m !! _normalize_extension c = None) ->
  first_match m l = None.
Proof.
  intros Hnone. rewrite <- (List.app_nil_r l). rewrite first_match_skip; [done|].
  by apply Forall_forall.
Qed.

Lemma extension_candidates_nonempty (path : Path) : _extension_candidates path ≠ [].
Proof. by destruct (candidates_head path) as [shorter ->]. Qed.

(** *** Lower-casing a name *)

Lemma eqb_dot_lower_char c :
  Ascii.eqb (Py.lower_char c) "." = Ascii.eqb c ".".
Proof. destruct c as [[] [] [] [] [] [] [] []]; reflexivity. Qed.

Lemma endswith_dot_lower s :
  Py.endswith_char "." (Py.lower s) = Py.endswith_char "." s.
Proof.
  induction s as [|c s IH]; [done|]. cbn [Py.lower Py.endswith_char].
  destruct s as [|c' s]; [apply eqb_dot_lower_char | exact IH].
Qed.

Lemma lstrip_dot_lower s :
  Py.lstrip_char "." (Py.lower s) = Py.lower (Py.lstrip_char "." s).
Proof.
  induction s as [|c s IH]; [done|]. cbn [Py.lower Py.lstrip_char].
  rewrite eqb_dot_lower_char. by destruct (Ascii.eqb c ".").
Qed.

Lemma split_dot_lower s :
  Py.split "." (Py.lower s) = map Py.lower (Py.split "." s).
Proof.
  induction s as [|c s IH]; [done|]. cbn [Py.lower Py.split].
  rewrite eqb_dot_lower_char, IH. destruct (Ascii.eqb c "."); [done|].
  by destruct (Py.split "." s).
Qed.

Lemma suffixes_lower s :
  PurePath.suffixes (Py.lower s) = map Py.lower (PurePath.suffixes s).
Proof.
  unfold PurePath.suffixes.
  rewrite endswith_dot_lower, lstrip_dot_lower, split_dot_lower.
  destruct (Py.endswith_char "." s); [done|].
  destruct (Py.split "." (Py.lstrip_char "." s)) as [|x l]; [done|].
  cbn [map tail]. induction l as [|y l IH]; [done|].
  cbn [map]. by rewrite IH.
Qed.

Lemma name_truediv (dir : Path) s : name (dir </> s) = s.
Proof. apply List.last_last. Qed.

Lemma extension_candidates_lower (dir : Path) s :
  _extension_candidates (dir </> Py.lower s) = _extension_candidates (dir </> s).
Proof.
  unfold _extension_candidates. rewrite !name_truediv, suffixes_lower.
  assert (forall l, map Py.lower (map Py.lower l) = map Py.lower l) as ->; [|done].
  induction l as [|x l IH]; [done|]. cbn [map]. by rewrite lower_idem, IH.
Qed.

End classifier_more.

(** X15. The candidate list of a name is never empty and stands longest
    first already, so the sort by length in [_decide_folder] returns it
    unchanged. *)
Theorem candidates_already_sorted (path : Path) :
  _extension_candidates path ≠ [] /\
  Py.sorted_len_desc (_extension_candidates path) = _extension_candidates path.
Proof. split; [apply extension_candidates_nonempty | apply sorted_candidates]. Qed.

(** X16. Longest match: when a candidate suffix is a key of the built
    index and no longer candidate is, [_decide_folder] returns its category,
    whatever the index holds for the shorter candidates. *)
Theorem decide_folder_longest_match
    (ms : list (string * list string)) (path : Path) (other folder : string)
    (longer shorter : list string) (c : string) :
  _extension_candidates path = longer ++ c :: shorter ->
  (forall c', c' ∈ longer -> _build_extension_map ms !! c' = None) ->
  _build_extension_map ms !! c = Some folder ->
  _decide_folder path (_build_extension_map ms) other = folder.
Proof. apply decide_folder_longest_key. Qed.

(** ".backup.tar.gz" is no key; ".tar.gz" is, and wins over ".gz". *)
Lemma decide_folder_longest_match_witness :
  _decide_folder ["Downloads"; "site.backup.tar.gz"]
    (_build_extension_map [("Compressed", ["gz"]); ("Tarballs", ["tar.gz"])]) "Other"
  = "Tarballs".
Proof.
  apply (decide_folder_longest_match _ _ _ _ [".backup.tar.gz"] [".gz"] ".tar.gz").
  - reflexivity.
  - intros c' ->%list_elem_of_singleton. vm_compute. reflexivity.
  - vm_compute. reflexivity.
Defined.

(** X17. When no candidate suffix of a name is a key, the name goes to the
    category of the wildcard key if the index has one, and to the catch-all
    folder otherwise; so a wildcard entry also takes every file whose
    extension is unknown, not only the files without an extension. *)
Theorem decide_folder_fallback
    (path : Path) (ext_map : gmap string string) (other : string) :
  (forall c, c ∈ _extension_candidates path ->
             ext_map !! _normalize_extension c = None) ->
  _decide_folder path ext_map other =
    match ext_map !! "" with Some folder => folder | None => other end.
Proof.
  intros Hnone. unfold _decide_folder.
  by rewrite sorted_candidates, first_match_None.
Qed.

(** mystery.xyz under an index with a wildcard category. *)
Lemma decide_folder_fallback_witness :
  _decide_folder ["Downloads"; "mystery.xyz"]
    (_build_extension_map [("Docs", ["pdf"]); ("Misc", [""])]) "Other" =
    match _build_extension_map [("Docs", ["pdf"]); ("Misc", [""])] !! "" with
    | Some folder => folder
    | None => "Other"
    end.
Proof.
  apply decide_folder_fallback.
  intros c ->%list_elem_of_singleton. vm_compute. reflexivity.
Defined.

(** X18. [_decide_folder] invents no folder: its result is the catch-all
    folder or a category stored in the index. *)
Theorem decide_folder_range
    (path : Path) (ext_map : gmap string string) (other : string) :
  _decide_folder path ext_map other = other \/
  exists k, ext_map !! k = Some (_decide_folder path ext_map other).
Proof.
  unfold _decide_folder.
  destruct (first_match _ _) as [folder|] eqn:Hm.
  - right. apply first_match_Some in Hm as (c & _ & Hc). eauto.
  - destruct (ext_map !! "") as [folder|] eqn:Hw; [right; eauto | by left].
Qed.

(** X19. For a file name of Latin-1 characters (code points below 256,
    the strings of this development) classification does not see the case
    of the name: the name and its lower-case form get the same candidates
    and the same folder. Beyond Latin-1 [str.lower] depends on the
    neighbours of a character, and the statement is not made there. *)
Theorem decide_folder_case_insensitive_latin1
    (dir : Path) (filename : string) (ext_map : gmap string string)
    (other : string) :
  _extension_candidates (dir </> Py.lower filename) =
    _extension_candidates (dir </> filename) /\
  _decide_folder (dir </> Py.lower filename) ext_map other =
    _decide_folder (dir </> filename) ext_map other.
Proof.
  split; [apply extension_candidates_lower|].
  unfold _decide_folder. by rewrite extension_candidates_lower.
Qed.

(** ** More on the destination resolver *)

Section single_extension.

Implicit Types (a b s : string).

Lemma rfind_no_dot s : Py.contains "." s = false -> Py.rfind "." s = None.
Proof.
  induction s as [|c s IH]; [done|]. cbn [Py.contains Py.rfind].
  intros [Hc Hs]%orb_false_elim. by rewrite IH, Hc.
Qed.

Lemma rfind_single_dot a b :
  Py.contains "." b = false ->
  Py.rfind "." (a +:+ "." +:+ b) = Some (String.length a).
Proof.
  intros Hb. induction a as [|c a IH].
  - change ("" +:+ "." +:+ b) with (String "." b). cbn [Py.rfind].
    by rewrite rfind_no_dot.
  - rewrite str_app_cons. cbn [Py.rfind]. by rewrite IH.
Qed.

Lemma substring_prefix a s : String.substring 0 (String.length a) (a +:+ s) = a.
Proof.
  induction a as [|c a IH]; [by destruct s|].
  rewrite str_app_cons. cbn [String.length String.substring]. by rewrite IH.
Qed.

Lemma substring_whole s : String.substring 0 (String.length s) s = s.
Proof. rewrite <- (str_app_nil_r s) at 2. apply substring_prefix. Qed.

Lemma substring_suffix a s :
  String.substring (String.length a) (String.length s) (a +:+ s) = s.
Proof.
  induction a as [|c a IH]; [apply substring_whole|].
  rewrite str_app_cons. cbn [String.length String.substring]. exact IH.
Qed.

Lemma endswith_app a b :
  b ≠ "" -> Py.endswith_char "." (a +:+ b) = Py.endswith_char "." b.
Proof.
  intros Hne. induction a as [|c a IH]; [done|].
  rewrite str_app_cons. cbn [Py.endswith_char].
  destruct (a +:+ b) eqn:Hab; [|exact IH].
  destruct a; [done | by rewrite str_app_cons in Hab].
Qed.

Lemma no_dot_lstrip_head a s :
  a ≠ "" -> Py.contains "." a = false -> Py.lstrip_char "." (a +:+ s) = a +:+ s.
Proof.
  destruct a as [|c a]; [done|]. intros _ Ha. cbn [Py.contains] in Ha.
  apply orb_false_elim in Ha as [Hc _].
  rewrite str_app_cons. cbn [Py.lstrip_char]. by rewrite Hc.
Qed.

Lemma split_single_dot a b :
  Py.contains "." a = false -> Py.contains "." b = false ->
  Py.split "." (a +:+ "." +:+ b) = [a; b].
Proof.
  intros Ha Hb. induction a as [|c a IH].
  - change ("" +:+ "." +:+ b) with (String "." b). cbn [Py.split].
    change (Ascii.eqb "." ".") with true. cbv iota. by rewrite no_dot_split.
  - cbn [Py.contains] in Ha. apply orb_false_elim in Ha as [Hc Ha].
    rewrite str_app_cons. cbn [Py.split]. by rewrite Hc, IH.
Qed.

(** A name [a.b] with one dot, [a] and [b] not empty: pathlib's parts. *)
Lemma single_extension_parts a b :
  Py.contains "." a = false -> Py.contains "." b = false -> a ≠ "" -> b ≠ "" ->
  PurePath.stem (a +:+ "." +:+ b) = a /\
  PurePath.suffix (a +:+ "." +:+ b) = "." +:+ b /\
  Py.join (PurePath.suffixes (a +:+ "." +:+ b)) = "." +:+ b.
Proof.
  intros Ha Hb Hane Hbne.
  assert (((0 <? String.length a) && (String.length a <? String.length (a +:+ "." +:+ b) - 1))%nat
          = true) as Hcond.
  { rewrite !str_length_app. destruct a, b; try done. cbn [String.length].
    apply andb_true_intro. split; [by apply Nat.ltb_lt; lia | apply Nat.ltb_lt; lia]. }
  split_and!.
  - unfold PurePath.stem. rewrite rfind_single_dot, Hcond by done.
    apply substring_prefix.
  - unfold PurePath.suffix. rewrite rfind_single_dot, Hcond by done.
    unfold Py.slice_from. rewrite str_length_app.
    replace (String.length a + String.length ("." +:+ b) - String.length a)%nat
      with (String.length ("." +:+ b)) by lia.
    apply substring_suffix.
  - unfold PurePath.suffixes.
    rewrite endswith_app by done.
    rewrite (endswith_app "." b), (no_dot_endswith b) by done.
    rewrite no_dot_lstrip_head, split_single_dot by done.
    cbn [tail map Py.join foldr]. apply str_app_nil_r.
Qed.

End single_extension.

(** X20. The resolver always answers with a direct child of the
    destination directory, leaves the world alone, and keeps the desired name
    exactly when that name is free. *)
Theorem resolve_destination_keeps_free_name
    (dest_dir : Path) (filename : string) (w : World) :
  exists destination,
    _resolve_destination dest_dir filename w = (Return destination, w) /\
    parent destination = dest_dir /\
    (destination = dest_dir </> filename <->
     tree w !! (dest_dir </> filename) = None).
Proof.
  destruct (tree w !! (dest_dir </> filename)) as [n|] eqn:Hn.
  - destruct (resolve_taken dest_dir filename w) as (i & _ & Hret & Hfree & _);
      [eauto|].
    eexists. split; [exact Hret|]. split; [apply removelast_last|].
    split; [|done]. intros Heq. rewrite Heq in Hfree. congruence.
  - exists (dest_dir </> filename). rewrite resolve_free by done.
    split; [done|]. split; [apply removelast_last | done].
Qed.

(** X21. A desired name that is taken is replaced by a numbered name
    [stem-N+suffixes], where [stem] is [Path(filename).stem], [suffixes] are
    all suffixes joined, and [N] is the first counter from 1 on whose path
    is free; the world is left alone. *)
Theorem resolve_destination_first_free
    (dest_dir : Path) (filename : string) (w : World) :
  is_Some (tree w !! (dest_dir </> filename)) ->
  exists index, (1 <= index)%nat /\
    _resolve_destination dest_dir filename w =
      (Return (dest_dir </>
               numbered (PurePath.stem filename)
                 (Py.join (PurePath.suffixes filename)) index), w) /\
    tree w !! (dest_dir </>
               numbered (PurePath.stem filename)
                 (Py.join (PurePath.suffixes filename)) index) = None /\
    forall j, (1 <= j < index)%nat ->
      is_Some (tree w !! (dest_dir </>
                          numbered (PurePath.stem filename)
                            (Py.join (PurePath.suffixes filename)) j)).
Proof. intros Htaken. by apply resolve_taken. Qed.

(** photo.jpg with three numbered variants taken: the counter is 4. *)
Lemma resolve_destination_first_free_witness :
  exists index, (1 <= index)%nat /\
    _resolve_destination ["Images"] "photo.jpg" (collisions 3) =
      (Return (["Images"] </>
               numbered (PurePath.stem "photo.jpg")
                 (Py.join (PurePath.suffixes "photo.jpg")) index), collisions 3) /\
    tree (collisions 3) !! (["Images"] </>
               numbered (PurePath.stem "photo.jpg")
                 (Py.join (PurePath.suffixes "photo.jpg")) index) = None /\
    forall j, (1 <= j < index)%nat ->
      is_Some (tree (collisions 3) !! (["Images"] </>
                          numbered (PurePath.stem "photo.jpg")
                            (Py.join (PurePath.suffixes "photo.jpg")) j)).
Proof.
  apply resolve_destination_first_free. vm_compute. eexists. reflexivity.
Defined.

(** X22. For a name [a.b] with a single extension ([a] and [b] not empty
    and without a dot) that is taken, the resolver returns [a-N.b] for the
    first free counter [N]: here the numbered name does keep the stem and
    the extension of the name. *)
Theorem resolve_destination_single_extension
    (dest_dir : Path) (a b : string) (w : World) :
  Py.contains "." a = false -> Py.contains "." b = false ->
  a ≠ "" -> b ≠ "" ->
  is_Some (tree w !! (dest_dir </> (a +:+ "." +:+ b))) ->
  exists index, (1 <= index)%nat /\
    _resolve_destination dest_dir (a +:+ "." +:+ b) w =
      (Return (dest_dir </> (a +:+ "-" +:+ pretty index +:+ "." +:+ b)), w) /\
    tree w !! (dest_dir </> (a +:+ "-" +:+ pretty index +:+ "." +:+ b)) = None /\
    forall j, (1 <= j < index)%nat ->
      is_Some (tree w !! (dest_dir </> (a +:+ "-" +:+ pretty j +:+ "." +:+ b))).
Proof.
  intros Ha Hb Hane Hbne Htaken.
  destruct (single_extension_parts a b Ha Hb Hane Hbne) as (Hstem & _ & Hsfx).
  destruct (resolve_taken dest_dir (a +:+ "." +:+ b) w Htaken)
    as (index & Hindex & Hret & Hfree & Hall).
  rewrite Hstem, Hsfx in Hret, Hfree, Hall. by exists index.
Qed.

Lemma resolve_destination_single_extension_witness :
  exists index, (1 <= index)%nat /\
    _resolve_destination ["Images"] ("photo" +:+ "." +:+ "jpg") (collisions 3) =
      (Return (["Images"] </> ("photo" +:+ "-" +:+ pretty index +:+ "." +:+ "jpg")),
       collisions 3) /\
    tree (collisions 3)
      !! (["Images"] </> ("photo" +:+ "-" +:+ pretty index +:+ "." +:+ "jpg")) = None /\
    forall j, (1 <= j < index)%nat ->
      is_Some (tree (collisions 3)
                 !! (["Images"] </> ("photo" +:+ "-" +:+ pretty j +:+ "." +:+ "jpg"))).
Proof.
  apply resolve_destination_single_extension;
    [reflexivity | reflexivity | discriminate | discriminate |].
  vm_compute. eexists. reflexivity.
Defined.

(** ** Scan driver *)

Section scan.

Implicit Types (w : World) (config : Config) (ext_map : gmap string string)
  (items : list Path) (p item : Path).

Lemma scan_existing_eq config ext_map :
  scan_existing config ext_map =
    (items <- Fs.iterdir (downloads_dir config) ;;
     for_each items (scan_item config ext_map)).
Proof. reflexivity. Qed.

Lemma iterdir_reads dir w :
  exists r, Fs.iterdir dir w = (r, w).
Proof. unfold Fs.iterdir. repeat case_match; by eexists. Qed.

(** The loop body keeps an entry unless it is the item itself and a
    regular file directly in the Downloads folder. *)
Lemma scan_item_frame config ext_map item w p n :
  tree w !! p = Some n ->
  p ≠ item \/ (exists writable, n = Dir writable) ->
  tree (scan_item config ext_map item w).2 !! p = Some n.
Proof.
  intros Hp Hkeep. unfold scan_item, bind, Fs.is_file, gets.
  destruct (tree w !! item) as [[mtime|wr]|] eqn:Hitem; cbn [andb]; try done.
  case_bool_decide; [|done].
  assert (p ≠ item) as Hne.
  { destruct Hkeep as [?|[wr ->]]; [done|]. intros ->. congruence. }
  pose proof (organize_file_frame item config ext_map w p n Hne Hp) as Hframe.
  destruct (organize_file item config ext_map w) as [[r|e|] w1]; done.
Qed.

Lemma for_each_frame config ext_map items w p n :
  tree w !! p = Some n ->
  p ∉ items \/ (exists writable, n = Dir writable) ->
  tree (for_each items (scan_item config ext_map) w).2 !! p = Some n.
Proof.
  revert w. induction items as [|item items IH]; intros w Hp Hkeep; [done|].
  cbn [for_each]. unfold bind.
  assert (tree (scan_item config ext_map item w).2 !! p = Some n) as Hstep.
  { apply scan_item_frame; [done|].
    destruct Hkeep as [Hnot|?]; [left | by right].
    intros ->. apply Hnot, elem_of_cons. by left. }
  destruct (scan_item config ext_map item w) as [[[]|e|] w1]; [|done..].
  apply IH; [done|]. destruct Hkeep as [Hnot|?]; [left | by right].
  intros Hin. apply Hnot, elem_of_cons. by right.
Qed.

Lemma iterdir_children dir w items w' :
  Fs.iterdir dir w = (Return items, w') ->
  w' = w /\ forall p, p ∈ items -> parent p = dir.
Proof.
  unfold Fs.iterdir. destruct (tree w !! dir) as [[?|?]|]; try done.
  intros [= <- <-]. split; [done|].
  by intros p [[Hparent _] _]%list_elem_of_filter.
Qed.

Lemma preserves_for_each {A} (items : list A) (body : A -> M unit) :
  (forall x, preserves_wf (body x)) -> preserves_wf (for_each items body).
Proof.
  intros Hbody. induction items as [|x items IH]; [apply preserves_ret|].
  cbn [for_each]. apply preserves_bind; [apply Hbody | by intros _].
Qed.

Lemma preserves_scan config ext_map : preserves_wf (scan_existing config ext_map).
Proof.
  rewrite scan_existing_eq. apply preserves_bind.
  { apply preserves_reads, iterdir_reads. }
  intros items. apply preserves_for_each. intros item. unfold scan_item.
  apply preserves_bind; [apply preserves_gets|]. intros f.
  apply preserves_if; [|apply preserves_ret].
  apply preserves_bind; [apply organize_file_preserves_wf|].
  intros _. apply preserves_ret.
Qed.

(** In a dry run the loop keeps every regular file where it is. *)
Lemma for_each_dry_run config ext_map items w p mtime :
  dry_run config = true ->
  tree (for_each items (scan_item config ext_map) w).2 !! p = Some (File mtime) <->
  tree w !! p = Some (File mtime).
Proof.
  intros Hdry. revert w. induction items as [|item items IH]; intros w; [done|].
  cbn [for_each]. unfold bind.
  assert (tree (scan_item config ext_map item w).2 !! p = Some (File mtime) <->
          tree w !! p = Some (File mtime)) as Hstep.
  { unfold scan_item, bind, Fs.is_file, gets.
    destruct (_ && _); [|done].
    destruct (organize_file item config ext_map w) as [r w1] eqn:Hrun.
    destruct (dry_run_keeps_files _ _ _ _ _ _ Hdry Hrun) as (_ & _ & Hfiles & _).
    destruct r as [r|e|]; apply Hfiles. }
  destruct (scan_item config ext_map item w) as [[[]|e|] w1]; [|done..].
  cbn [snd] in Hstep. by rewrite IH.
Qed.

End scan.

(** X23. A scan is not recursive and moves regular files only: every
    entry that is a directory, and every entry that does not lie directly in
    the Downloads folder, is the same after the scan, however the scan
    ends. *)
Theorem scan_existing_keeps_other_entries
    (config : Config) (ext_map : gmap string string) (w : World)
    (p : Path) (n : node) :
  tree w !! p = Some n ->
  parent p ≠ downloads_dir config \/ (exists writable, n = Dir writable) ->
  tree (scan_existing config ext_map w).2 !! p = Some n.
Proof.
  intros Hp Hkeep. rewrite scan_existing_eq. unfold bind.
  destruct (Fs.iterdir (downloads_dir config) w) as [[items|e|] w1] eqn:Hiter.
  - apply iterdir_children in Hiter as [-> Hchildren].
    apply for_each_frame; [done|].
    destruct Hkeep as [Hparent|?]; [left | by right].
    intros Hin. by apply Hparent, Hchildren.
  - destruct (iterdir_reads (downloads_dir config) w) as [r Hr].
    rewrite Hr in Hiter. by injection Hiter as _ <-.
  - destruct (iterdir_reads (downloads_dir config) w) as [r Hr].
    rewrite Hr in Hiter. by injection Hiter as _ <-.
Qed.

(** The file inside the subdirectory Projects/ is not touched. *)
Lemma scan_existing_keeps_other_entries_witness :
  tree (scan_existing (default_config true false) default_index
          with_subdirectory).2
    !! (home_downloads </> "Projects" </> "draft.pdf") = Some (File 5).
Proof.
  apply scan_existing_keeps_other_entries.
  - vm_compute. reflexivity.
  - left. discriminate.
Defined.

(** X24. A scan keeps the tree well formed, however it ends. *)
Theorem scan_existing_keeps_well_formed
    (config : Config) (ext_map : gmap string string) (w : World) :
  wf_tree (tree w) ->
  wf_tree (tree (scan_existing config ext_map w).2).
Proof.
  intros Hwf. destruct (scan_existing config ext_map w) as [r w'] eqn:Hrun.
  by eapply preserves_scan.
Qed.

Lemma scan_existing_keeps_well_formed_witness :
  wf_tree (tree (scan_existing (default_config true false) default_index
                   with_subdirectory).2).
Proof.
  apply scan_existing_keeps_well_formed.
  unfold wf_tree. refine (bool_decide_unpack _ _). vm_compute. exact I.
Defined.

(** X25. A dry-run scan moves nothing: it holds the same regular files,
    at the same paths and with the same modification times, before and
    after. *)
Theorem scan_existing_dry_run
    (config : Config) (ext_map : gmap string string) (w : World)
    (p : Path) (mtime : Z) :
  dry_run config = true ->
  tree (scan_existing config ext_map w).2 !! p = Some (File mtime) <->
  tree w !! p = Some (File mtime).
Proof.
  intros Hdry. rewrite scan_existing_eq. unfold bind.
  destruct (iterdir_reads (downloads_dir config) w) as [r Hr]. rewrite Hr.
  destruct r as [items|e|]; [|done..]. by apply for_each_dry_run.
Qed.

Lemma scan_existing_dry_run_witness :
  tree (scan_existing (default_config true true) default_index two_files).2
    !! report_path = Some (File 10) <->
  tree two_files !! report_path = Some (File 10).
Proof. apply scan_existing_dry_run. reflexivity. Defined.

(** X26. When the configured Downloads path is not a directory of the
    tree, the scan raises at once and changes nothing:
    [FileNotFoundError] when the path is missing, [NotADirectoryError] when
    it is a regular file (a path for which [exists()] holds). *)
Theorem scan_existing_not_a_directory
    (config : Config) (ext_map : gmap string string) (w : World) :
  (forall writable, tree w !! downloads_dir config ≠ Some (Dir writable)) ->
  scan_existing config ext_map w =
    (Raise (match tree w !! downloads_dir config with
            | None => FileNotFoundError
            | Some _ => NotADirectoryError
            end), w).
Proof.
  intros Hnot. rewrite scan_existing_eq. unfold bind, Fs.iterdir.
  destruct (tree w !! downloads_dir config) as [[mtime|writable]|] eqn:Hdir;
    [done | by destruct (Hnot writable) | done].
Qed.

(** The Downloads path is the regular file notes.txt. *)
Lemma scan_existing_not_a_directory_witness :
  scan_existing (config_at (home_downloads </> "notes.txt") false) default_index
    two_files =
  (Raise (match tree two_files
                  !! downloads_dir (config_at (home_downloads </> "notes.txt") false)
          with
          | None => FileNotFoundError
          | Some _ => NotADirectoryError
          end), two_files).
Proof.
  apply scan_existing_not_a_directory.
  intros writable. vm_compute. discriminate.
Defined.

(** ** Hidden files *)

Section hidden_files.

Implicit Types (w : World) (path dir destination : Path) (config : Config)
  (ext_map : gmap string string).





End hidden_files.


